(** * The Caspian Co: the [CaspianData] data layer

    A shallow embedding of the data-access module of the catalog site
    (the IIFE [CaspianData] in [women/js/home.js]) and the properties of
    its derived views: scheduled-publish visibility, the active, featured,
    per-category and recently-added product views, the category rollup, the
    text search, product lookup, and the load-once cache.

    Conventions.
    - A JavaScript string is modelled as a Rocq [string]: a sequence of code
      units below 256 (Latin-1 text).
    - A JavaScript number that the module handles is an integer (a flag, a
      count or a time value in milliseconds): it is a [Z].
    - A [Date] is its time value, [None] standing for the Invalid Date
      (time value NaN).
    - The catalog records are typed after the fields the module reads; a
      field that the module tests for presence is an [option]. *)

From Stdlib Require Import ZArith List Bool Ascii String Lia Permutation Sorted.
From Stdlib Require QArith.
From stdpp Require Import base option list strings gmap.

Import ListNotations.
Local Open Scope Z_scope.

(** ** Strings: [toLowerCase], [trim], [includes] *)

Module JsString.

(** Code units that [String.prototype.trim] strips: TAB, LF, VT, FF, CR,
    SPACE and NBSP (the WhiteSpace and LineTerminator code points below
    256). *)
Definition isWhiteSpace (c : ascii) : bool :=
  let n := nat_of_ascii c in
  ((9 <=? n)%nat && (n <=? 13)%nat) || (n =? 32)%nat || (n =? 160)%nat.

(** Lower-casing of one code unit: A-Z, and the Latin-1 capitals
    U+00C0..U+00DE except the multiplication sign U+00D7. *)
Definition lowerChar (c : ascii) : ascii :=
  let n := nat_of_ascii c in
  if ((65 <=? n)%nat && (n <=? 90)%nat)
     || ((192 <=? n)%nat && (n <=? 222)%nat && negb (n =? 215)%nat)
  then ascii_of_nat (n + 32)
  else c.

Fixpoint toLowerCase (s : string) : string :=
  match s with
  | EmptyString => EmptyString
  | String c r => String (lowerChar c) (toLowerCase r)
  end.

Fixpoint trimStart (s : string) : string :=
  match s with
  | EmptyString => EmptyString
  | String c r => if isWhiteSpace c then trimStart r else s
  end.

Fixpoint trimEnd (s : string) : string :=
  match s with
  | EmptyString => EmptyString
  | String c r =>
      match trimEnd r with
      | EmptyString => if isWhiteSpace c then EmptyString else String c EmptyString
      | r' => String c r'
      end
  end.

Definition trim (s : string) : string := trimEnd (trimStart s).

Fixpoint startsWith (s t : string) {struct t} : bool :=
  match t, s with
  | EmptyString, _ => true
  | String _ _, EmptyString => false
  | String b t', String a s' => bool_decide (a = b) && startsWith s' t'
  end.

(** [s.includes(t)]: [t] occurs in [s] at some position. *)
Fixpoint includes (s t : string) : bool :=
  startsWith s t ||
  match s with
  | EmptyString => false
  | String _ r => includes r t
  end.

(** [!s] for a string: only the empty string is falsy. *)
Definition truthy (s : string) : bool := negb (bool_decide (s = EmptyString)).

(** Every code unit of [s] is white space. *)
Fixpoint allWhiteSpace (s : string) : bool :=
  match s with
  | EmptyString => true
  | String c r => isWhiteSpace c && allWhiteSpace r
  end.

End JsString.

(** ** Dates and the host environment *)

(** A [Date] object is its time value in milliseconds since the epoch;
    [None] is the Invalid Date. *)
Definition Date := option Z.

(** [TimeClip]: time values beyond 8.64e15 ms are not representable. *)
Definition timeClip (t : Z) : Date :=
  if Z.abs t <=? 8640000000000000 then Some t else None.

(** [a >= b] on two dates: both operands are converted to their time values
    and a comparison with NaN is false. *)
Definition dateGe (a b : Date) : bool :=
  match a, b with
  | Some x, Some y => y <=? x
  | _, _ => false
  end.

(** [b - a] on two dates: NaN when either is invalid. *)
Definition dateSub (b a : Date) : option Z :=
  match b, a with
  | Some y, Some x => Some (y - x)
  | _, _ => None
  end.

(** ** The catalog records *)

Record Product := {
  id : string;
  name : string;
  description : string;
  category : string;
  sub_category : option string;
  tags : option (list string);
  active : Z;
  featured : Z;
  publish_at : option string;
  added_date : string
}.

Record Category := {
  cat_id : string;
  cat_label : string
}.

Record HomeData := {
  hero_enabled : Z;
  hero_slides : list string
}.

#[global] Instance Product_eq_dec : EqDecision Product.
Proof. solve_decision. Defined.

#[global] Instance Category_eq_dec : EqDecision Category.
Proof. solve_decision. Defined.

#[global] Instance HomeData_eq_dec : EqDecision HomeData.
Proof. solve_decision. Defined.

(** What one call of the module reads from the browser. A call is
    synchronous and short: the clock is read as one value for the call.
    - [now]: the time value of [new Date()];
    - [timezoneOffset]: [getTimezoneOffset()], minutes from local time to UTC;
    - [dateParse]: [Date.parse], which is ISO 8601 first and
      implementation-defined beyond it ([None] for NaN);
    - [randomOrder]: the outcome of [Array.prototype.sort] under the
      coin-flip comparator [() => 0.5 - Math.random()]; that comparator is
      not consistent, so the order it yields is implementation-defined. *)
Record Host := {
  now : Z;
  timezoneOffset : Z;
  dateParse : string -> Date;
  randomOrder : list Product -> list Product
}.

(** ** Array methods *)

Module JsArray.
Section Methods.
Context {A : Type}.

(** [l.slice(0, end)]: a negative [end] counts from the end of the
    array, and the bounds are clamped to the array. *)
Definition slice0 (l : list A) (end_ : Z) : list A :=
  let len := Z.of_nat (length l) in
  let final := if end_ <? 0 then Z.max (len + end_) 0 else Z.min end_ len in
  firstn (Z.to_nat final) l.

(** [l.find(f)]: the first element that satisfies [f]. *)
Fixpoint find (f : A -> bool) (l : list A) : option A :=
  match l with
  | [] => None
  | x :: r => if f x then Some x else find f r
  end.

(** [l.some(f)]. *)
Definition some (f : A -> bool) (l : list A) : bool := existsb f l.

(** [l.sort(cmp)]. [cmp a b] is the number the comparator returns
    ([None] for NaN, which sort treats as [+0]). A positive value puts
    [b] before [a]; otherwise [a] stays first. The sort is stable, so
    for a consistent comparator its result is fixed by the language;
    it is computed here by insertion. *)
Definition after (cmp : A -> A -> option Z) (a b : A) : bool :=
  match cmp a b with
  | Some v => 0 <? v
  | None => false
  end.

Fixpoint insertSorted (cmp : A -> A -> option Z) (x : A) (l : list A) : list A :=
  match l with
  | [] => [x]
  | y :: r => if after cmp x y then y :: insertSorted cmp x r else x :: l
  end.

Definition sort (cmp : A -> A -> option Z) (l : list A) : list A :=
  foldr (insertSorted cmp) [] l.

End Methods.

(** The default comparator of [sort()] on strings: code-unit order. *)
Definition defaultCompare (a b : string) : option Z :=
  match String.compare a b with
  | Lt => Some (-1)
  | Eq => Some 0
  | Gt => Some 1
  end.

(** A [Set] of strings built by [add], read back in insertion order. *)
Definition setAdd (x : string) (s : list string) : list string :=
  if bool_decide (x ∈ s) then s else s ++ [x].

End JsArray.

(** ** The views, as functions of the cached catalogs

    The module keeps [productsData] and [categoriesData] in its closure;
    the views read them and the host, and build new arrays. *)

Module Views.
Section Defs.
Context (h : Host).
Context (productsData : list Product) (categoriesData : list Category).

(** [getCurrentIST]:
    [new Date(now.getTime() + now.getTimezoneOffset() * 60000 + 5.5 * 60 * 60 * 1000)]. *)
Definition getCurrentIST : Date :=
  let istOffset := 19800000 in
  let utcTime := now h + timezoneOffset h * 60000 in
  timeClip (utcTime + istOffset).

(** [isProductPublished]. [new Date(string)] never throws: a string that
    cannot be parsed gives the Invalid Date, so the [catch] branch of the
    source is not reachable and the comparison decides. *)
Definition isProductPublished (product : Product) : bool :=
  match publish_at product with
  | None => true
  | Some s =>
      if negb (JsString.truthy s) then true
      else
        let currentIST := getCurrentIST in
        let publishTime := dateParse h s in
        dateGe currentIST publishTime
  end.

Definition getAllActiveProducts : list Product :=
  List.filter (fun product => (active product =? 1) && isProductPublished product)
              productsData.

Definition getProductById (id0 : string) : option Product :=
  match JsArray.find (fun p => bool_decide (id p = id0)) productsData with
  | None => None
  | Some product =>
      if negb (active product =? 1) || negb (isProductPublished product)
      then None
      else Some product
  end.

(** [limit] is [None] when the argument is omitted or [null]. *)
Definition getProductsByCategory (category0 : string) (limit : option Z)
  : list Product :=
  let products :=
    List.filter (fun p => bool_decide (category p = category0)) getAllActiveProducts in
  match limit with
  | Some n => if negb (n =? 0) then JsArray.slice0 products n else products
  | None => products
  end.

Definition addedDateCompare (a b : Product) : option Z :=
  let dateA := dateParse h (added_date a) in
  let dateB := dateParse h (added_date b) in
  dateSub dateB dateA.

(** [limit] is [None] when the argument is omitted: the default is 6. *)
Definition getRecentlyAddedProducts (limit : option Z) : list Product :=
  let limit := default 6 limit in
  let activeProducts := getAllActiveProducts in
  let sorted := JsArray.sort addedDateCompare activeProducts in
  JsArray.slice0 sorted limit.

Definition getFeaturedProducts : list Product :=
  List.filter (fun p => featured p =? 1) getAllActiveProducts.

Definition getCategoryConfig (categoryId : string) : option Category :=
  JsArray.find (fun cat => bool_decide (cat_id cat = categoryId)) categoriesData.

Definition getAllCategories : list Category :=
  let activeProducts := getAllActiveProducts in
  let categoriesWithProducts : gset string :=
    list_to_set (map category activeProducts) in
  List.filter (fun cat => bool_decide (cat_id cat ∈ categoriesWithProducts))
              categoriesData.

Definition getUniqueTags (products : list Product) : list string :=
  let tagsSet :=
    fold_left (fun acc product =>
                 match tags product with
                 | Some ts => fold_left (fun acc tag => JsArray.setAdd tag acc) ts acc
                 | None => acc
                 end) products [] in
  JsArray.sort JsArray.defaultCompare tagsSet.

Definition getUniqueSubCategories (products : list Product) : list string :=
  let subCatsSet :=
    fold_left (fun acc product =>
                 match sub_category product with
                 | Some sc => if JsString.truthy sc then JsArray.setAdd sc acc else acc
                 | None => acc
                 end) products [] in
  JsArray.sort JsArray.defaultCompare subCatsSet.

(** The predicate of the filter in [searchProducts]. *)
Definition matchesSearch (searchTerm : string) (product : Product) : bool :=
  JsString.includes (JsString.toLowerCase (name product)) searchTerm
  || JsString.includes (JsString.toLowerCase (description product)) searchTerm
  || JsString.includes (JsString.toLowerCase (category product)) searchTerm
  || match sub_category product with
     | Some sc =>
         JsString.truthy sc && JsString.includes (JsString.toLowerCase sc) searchTerm
     | None => false
     end
  || match tags product with
     | Some ts =>
         JsArray.some (fun tag => JsString.includes (JsString.toLowerCase tag) searchTerm) ts
     | None => false
     end.

Definition searchProducts (query : string) : list Product :=
  if negb (JsString.truthy query) || bool_decide (JsString.trim query = EmptyString)
  then []
  else
    let searchTerm := JsString.trim (JsString.toLowerCase query) in
    let activeProducts := getAllActiveProducts in
    List.filter (matchesSearch searchTerm) activeProducts.

(** [limit] is [None] when the argument is omitted: the default is 4. *)
Definition getRelatedProducts (productId category0 : string) (limit : option Z)
  : list Product :=
  let limit := default 4 limit in
  let categoryProducts := getProductsByCategory category0 None in
  let relatedProducts :=
    List.filter (fun p => negb (bool_decide (id p = productId))) categoryProducts in
  let shuffled := randomOrder h relatedProducts in
  JsArray.slice0 shuffled limit.

End Defs.
End Views.

(** ** The module on the object store

    Arrays are objects: the closure variables [productsData] and
    [categoriesData] hold references, [filter], [slice], [map] and
    [Array.from] build new arrays, and [sort] reorders the array it is
    called on. The store makes the sharing explicit. *)

Module Store.

Definition loc := nat.

(** An array object in the store. *)
Inductive Arr :=
| ArrProducts (l : list Product)
| ArrCategories (l : list Category)
| ArrStrings (l : list string).

#[global] Instance Arr_eq_dec : EqDecision Arr.
Proof. solve_decision. Defined.

Definition asProducts (a : option Arr) : list Product :=
  match a with Some (ArrProducts l) => l | _ => [] end.

Definition asCategories (a : option Arr) : list Category :=
  match a with Some (ArrCategories l) => l | _ => [] end.

Definition asStrings (a : option Arr) : list string :=
  match a with Some (ArrStrings l) => l | _ => [] end.

(** The closure variables of the module, the array objects, and the log
    of the URLs handed to [fetch]. *)
Record State := {
  heap : list Arr;
  productsData : loc;
  categoriesData : loc;
  homeData : option HomeData;
  dataLoaded : bool;
  fetched : list string
}.

Definition withHeap (hp : list Arr) (s : State) : State :=
  {| heap := hp; productsData := productsData s;
     categoriesData := categoriesData s; homeData := homeData s;
     dataLoaded := dataLoaded s; fetched := fetched s |}.

(** [let productsData = []; let categoriesData = []; let homeData = null;
    let dataLoaded = false;] *)
Definition initial : State :=
  {| heap := [ArrProducts []; ArrCategories []];
     productsData := 0%nat; categoriesData := 1%nat;
     homeData := None; dataLoaded := false; fetched := [] |}.

(** Computations on the store. *)
Definition M (A : Type) : Type := State -> A * State.

#[global] Instance M_ret : MRet M := fun A x s => (x, s).
#[global] Instance M_bind : MBind M :=
  fun A B f m s => let '(x, s') := m s in f x s'.

Definition get : M State := fun s => (s, s).

Definition alloc (a : Arr) : M loc :=
  fun s => (length (heap s), withHeap (heap s ++ [a]) s).

Definition read (l : loc) : M (option Arr) :=
  fun s => (heap s !! l, s).

Definition write (l : loc) (a : Arr) : M unit :=
  fun s => (tt, withHeap (<[l := a]> (heap s)) s).

(** [l.filter(f)] on an array of products. *)
Definition filterArray (f : Product -> bool) (l : loc) : M loc :=
  a ← read l; alloc (ArrProducts (List.filter f (asProducts a))).

(** [l.slice(0, n)] on an array of products. *)
Definition sliceArray (l : loc) (n : Z) : M loc :=
  a ← read l; alloc (ArrProducts (JsArray.slice0 (asProducts a) n)).

(** [l.sort(...)] on an array of products: the array [l] itself is
    reordered and returned; [order] is the resulting order. *)
Definition sortArray (order : list Product -> list Product) (l : loc)
  : M loc :=
  a ← read l;
  match a with
  | Some (ArrProducts xs) => _ ← write l (ArrProducts (order xs)); mret l
  | _ => mret l
  end.

(** [l.sort()] on an array of strings, in place. *)
Definition sortStrings (l : loc) : M loc :=
  a ← read l;
  match a with
  | Some (ArrStrings xs) =>
      _ ← write l (ArrStrings (JsArray.sort JsArray.defaultCompare xs)); mret l
  | _ => mret l
  end.

Section Api.
Context (h : Host).

(** [isProductPublished] reads no array: it is the function of the
    views. *)
Definition isProductPublished : Product -> bool := Views.isProductPublished h.

Definition getAllActiveProducts : M loc :=
  s ← get;
  filterArray
    (fun product => (active product =? 1) && isProductPublished product)
    (productsData s).

Definition getProductsByCategory (category0 : string) (limit : option Z)
  : M loc :=
  active_ ← getAllActiveProducts;
  products ← filterArray (fun p => bool_decide (category p = category0)) active_;
  match limit with
  | Some n => if negb (n =? 0) then sliceArray products n else mret products
  | None => mret products
  end.

Definition getRecentlyAddedProducts (limit : option Z) : M loc :=
  let limit := default 6 limit in
  activeProducts ← getAllActiveProducts;
  sorted ← sortArray (JsArray.sort (Views.addedDateCompare h)) activeProducts;
  sliceArray sorted limit.

Definition getFeaturedProducts : M loc :=
  active_ ← getAllActiveProducts;
  filterArray (fun p => featured p =? 1) active_.

Definition getAllCategories : M loc :=
  activeProducts ← getAllActiveProducts;
  a ← read activeProducts;
  mapped ← alloc (ArrStrings (map category (asProducts a)));
  m ← read mapped;
  let categoriesWithProducts : gset string := list_to_set (asStrings m) in
  s ← get;
  c ← read (categoriesData s);
  alloc (ArrCategories
           (List.filter
              (fun cat => bool_decide (cat_id cat ∈ categoriesWithProducts))
              (asCategories c))).

Definition getUniqueTags (products : loc) : M loc :=
  a ← read products;
  let tagsSet :=
    fold_left (fun acc product =>
                 match tags product with
                 | Some ts => fold_left (fun acc tag => JsArray.setAdd tag acc) ts acc
                 | None => acc
                 end) (asProducts a) [] in
  arr ← alloc (ArrStrings tagsSet);
  sortStrings arr.

Definition getUniqueSubCategories (products : loc) : M loc :=
  a ← read products;
  let subCatsSet :=
    fold_left (fun acc product =>
                 match sub_category product with
                 | Some sc => if JsString.truthy sc then JsArray.setAdd sc acc else acc
                 | None => acc
                 end) (asProducts a) [] in
  arr ← alloc (ArrStrings subCatsSet);
  sortStrings arr.

Definition searchProducts (query : string) : M loc :=
  if negb (JsString.truthy query) || bool_decide (JsString.trim query = EmptyString)
  then alloc (ArrProducts [])
  else
    let searchTerm := JsString.trim (JsString.toLowerCase query) in
    activeProducts ← getAllActiveProducts;
    filterArray (Views.matchesSearch searchTerm) activeProducts.

Definition getRelatedProducts (productId category0 : string) (limit : option Z)
  : M loc :=
  let limit := default 4 limit in
  categoryProducts ← getProductsByCategory category0 None;
  relatedProducts ←
    filterArray (fun p => negb (bool_decide (id p = productId))) categoryProducts;
  shuffled ← sortArray (randomOrder h) relatedProducts;
  sliceArray shuffled limit.

End Api.

(** *** Loading

    What the network answers to one call of [loadAllData]: for each of the
    three URLs, [None] when [fetch] rejects, and otherwise a response with
    its [ok] flag and the value of [json()] ([None] when the body is not
    valid JSON and [json()] rejects). *)
Record Response (A : Type) := {
  ok : bool;
  json : option A
}.
Arguments ok {A} _.
Arguments json {A} _.

Record Network := {
  productsRes : option (Response (list Product));
  categoriesRes : option (Response (list Category));
  homeRes : option (Response HomeData)
}.

Definition productsUrl : string := "/home/women/data/womenproducts.json".
Definition categoriesUrl : string := "/home/women/data/categories.json".
Definition homeUrl : string := "/home/women/data/home.json".

Definition fetchAll : M unit :=
  fun s =>
    (tt, {| heap := heap s; productsData := productsData s;
            categoriesData := categoriesData s; homeData := homeData s;
            dataLoaded := dataLoaded s;
            fetched := fetched s ++ [productsUrl; categoriesUrl; homeUrl] |}).

Definition setProductsData (l : loc) : M unit :=
  fun s =>
    (tt, {| heap := heap s; productsData := l;
            categoriesData := categoriesData s; homeData := homeData s;
            dataLoaded := dataLoaded s; fetched := fetched s |}).

Definition setCategoriesData (l : loc) : M unit :=
  fun s =>
    (tt, {| heap := heap s; productsData := productsData s;
            categoriesData := l; homeData := homeData s;
            dataLoaded := dataLoaded s; fetched := fetched s |}).

Definition setHomeData (d : HomeData) : M unit :=
  fun s =>
    (tt, {| heap := heap s; productsData := productsData s;
            categoriesData := categoriesData s; homeData := Some d;
            dataLoaded := dataLoaded s; fetched := fetched s |}).

Definition setDataLoaded : M unit :=
  fun s =>
    (tt, {| heap := heap s; productsData := productsData s;
            categoriesData := categoriesData s; homeData := homeData s;
            dataLoaded := true; fetched := fetched s |}).

(** [loadAllData], run to completion. The three fetches are started
    together; a rejected fetch, a response that is not [ok] or a body that
    does not parse ends the call in the [catch] branch with [false], after
    the assignments made so far. *)
Definition loadAllData (net : Network) : M bool :=
  s ← get;
  if dataLoaded s then mret true
  else
    _ ← fetchAll;
    match productsRes net, categoriesRes net, homeRes net with
    | Some pr, Some cr, Some hr =>
        if negb (ok pr) || negb (ok cr) || negb (ok hr) then mret false
        else
          match json pr with
          | None => mret false
          | Some ps =>
              l ← alloc (ArrProducts ps);
              _ ← setProductsData l;
              match json cr with
              | None => mret false
              | Some cs =>
                  l ← alloc (ArrCategories cs);
                  _ ← setCategoriesData l;
                  match json hr with
                  | None => mret false
                  | Some d =>
                      _ ← setHomeData d;
                      _ ← setDataLoaded;
                      mret true
                  end
              end
          end
    | _, _, _ => mret false
    end.


(** *** The query operations, as one type *)
Inductive Query :=
| QAllActiveProducts
| QProductsByCategory (category0 : string) (limit : option Z)
| QRecentlyAddedProducts (limit : option Z)
| QFeaturedProducts
| QAllCategories
| QUniqueTags (products : loc)
| QUniqueSubCategories (products : loc)
| QSearchProducts (query : string)
| QRelatedProducts (productId category0 : string) (limit : option Z).

Definition runQuery (h : Host) (q : Query) : M loc :=
  match q with
  | QAllActiveProducts => getAllActiveProducts h
  | QProductsByCategory c limit => getProductsByCategory h c limit
  | QRecentlyAddedProducts limit => getRecentlyAddedProducts h limit
  | QFeaturedProducts => getFeaturedProducts h
  | QAllCategories => getAllCategories h
  | QUniqueTags products => getUniqueTags products
  | QUniqueSubCategories products => getUniqueSubCategories products
  | QSearchProducts query => searchProducts h query
  | QRelatedProducts productId c limit => getRelatedProducts h productId c limit
  end.

(** The array a query returns, read from the store it leaves. *)
Definition resultOf (h : Host) (q : Query) (s : State) : option Arr :=
  let '(r, s') := runQuery h q s in heap s' !! r.

(** What a query returns as a function of the cached catalogs (and, for
    the two facet queries, of the array passed in). *)
Definition viewOf (h : Host) (q : Query) (s : State) : Arr :=
  let ps := asProducts (heap s !! productsData s) in
  let cs := asCategories (heap s !! categoriesData s) in
  match q with
  | QAllActiveProducts => ArrProducts (Views.getAllActiveProducts h ps)
  | QProductsByCategory c limit => ArrProducts (Views.getProductsByCategory h ps c limit)
  | QRecentlyAddedProducts limit => ArrProducts (Views.getRecentlyAddedProducts h ps limit)
  | QFeaturedProducts => ArrProducts (Views.getFeaturedProducts h ps)
  | QAllCategories => ArrCategories (Views.getAllCategories h ps cs)
  | QUniqueTags l => ArrStrings (Views.getUniqueTags (asProducts (heap s !! l)))
  | QUniqueSubCategories l =>
      ArrStrings (Views.getUniqueSubCategories (asProducts (heap s !! l)))
  | QSearchProducts query => ArrProducts (Views.searchProducts h ps query)
  | QRelatedProducts productId c limit =>
      ArrProducts (Views.getRelatedProducts h ps productId c limit)
  end.

(** An operation on the module: a load under some network conditions, or
    a query under some host conditions. *)
Inductive Op :=
| OpLoad (net : Network)
| OpQuery (h : Host) (q : Query).

Definition runOp (o : Op) (s : State) : State :=
  match o with
  | OpLoad net => snd (loadAllData net s)
  | OpQuery h q => snd (runQuery h q s)
  end.

Definition runOps (ops : list Op) (s : State) : State :=
  fold_left (fun s o => runOp o s) ops s.

(** The closure variables refer to array objects of the store. *)
Definition wf (s : State) : Prop :=
  (productsData s < length (heap s))%nat /\
  (categoriesData s < length (heap s))%nat.

(** The cached data: the two catalogs, by content, and the home data. *)
Definition cached (s : State) : option Arr * option Arr * option HomeData :=
  (heap s !! productsData s, heap s !! categoriesData s, homeData s).

End Store.

(** ** A host

    A browser whose [Date.parse] accepts the ECMAScript date-time string
    format and nothing else: [YYYY-MM-DD], or a date followed by [THH:mm],
    [THH:mm:ss] or [THH:mm:ss.sss] and an optional [Z] or [+HH:mm] /
    [-HH:mm]. A date alone is UTC; a date and time without an offset is
    local time. *)

Module IsoHost.

Definition digit (c : ascii) : option Z :=
  let n := Z.of_nat (nat_of_ascii c) in
  if (48 <=? n) && (n <=? 57) then Some (n - 48) else None.

(** [k] decimal digits. *)
Fixpoint number (k : nat) (acc : Z) (s : string) : option (Z * string) :=
  match k with
  | O => Some (acc, s)
  | S k' =>
      match s with
      | String c r => d ← digit c; number k' (acc * 10 + d) r
      | EmptyString => None
      end
  end.

Definition lit (c : ascii) (s : string) : option string :=
  match s with
  | String c' r => if bool_decide (c = c') then Some r else None
  | EmptyString => None
  end.

Definition isLeap (y : Z) : bool :=
  ((y mod 4 =? 0) && negb (y mod 100 =? 0)) || (y mod 400 =? 0).

Definition daysInMonth (y m : Z) : Z :=
  if m =? 2 then (if isLeap y then 29 else 28)
  else if (m =? 4) || (m =? 6) || (m =? 9) || (m =? 11) then 30
  else 31.

(** Days from 1970-01-01 to the given civil date. *)
Definition daysFromCivil (y m d : Z) : Z :=
  let y' := if m <=? 2 then y - 1 else y in
  let era := y' / 400 in
  let yoe := y' - era * 400 in
  let mp := if 2 <? m then m - 3 else m + 9 in
  let doy := (153 * mp + 2) / 5 + d - 1 in
  let doe := yoe * 365 + yoe / 4 - yoe / 100 + doy in
  era * 146097 + doe - 719468.

(** The zone suffix: the minutes to add to reach UTC. *)
Definition zone (tz : Z) (s : string) : option Z :=
  match s with
  | EmptyString => Some tz
  | String "Z" EmptyString => Some 0
  | String sign r =>
      '(hh, r) ← number 2 0 r;
      r ← lit ":" r;
      '(mm, r) ← number 2 0 r;
      if bool_decide (r = EmptyString) && (hh <=? 23) && (mm <=? 59) then
        if bool_decide (sign = "+"%char) then Some (- (hh * 60 + mm))
        else if bool_decide (sign = "-"%char) then Some (hh * 60 + mm)
        else None
      else None
  end.

(** Optional [:ss] and [.sss]. *)
Definition seconds (s : string) : option (Z * Z * string) :=
  match lit ":" s with
  | Some r =>
      '(ss, r) ← number 2 0 r;
      match lit "." r with
      | Some r' => '(ms, r') ← number 3 0 r'; Some (ss, ms, r')
      | None => Some (ss, 0, r)
      end
  | None => Some (0, 0, s)
  end.

Definition isoParse (tz : Z) (s : string) : Date :=
  '(y, r) ← number 4 0 s;
  r ← lit "-" r;
  '(m, r) ← number 2 0 r;
  r ← lit "-" r;
  '(d, r) ← number 2 0 r;
  if (1 <=? m) && (m <=? 12) && (1 <=? d) && (d <=? daysInMonth y m) then
    let day := daysFromCivil y m d * 86400000 in
    match r with
    | EmptyString => timeClip day
    | _ =>
        r ← lit "T" r;
        '(hh, r) ← number 2 0 r;
        r ← lit ":" r;
        '(mm, r) ← number 2 0 r;
        '(ss, ms, r) ← seconds r;
        off ← zone tz r;
        if ((hh <=? 23) && (mm <=? 59) && (ss <=? 59))
           || ((hh =? 24) && (mm =? 0) && (ss =? 0) && (ms =? 0))
        then timeClip (day + hh * 3600000 + mm * 60000 + ss * 1000 + ms + off * 60000)
        else None
    end
  else None.

(** The host at time [t] in a zone with [getTimezoneOffset() = tz]; its
    coin-flip sort happens to leave the array as it is. *)
Definition at_ (t tz : Z) : Host :=
  {| now := t; timezoneOffset := tz; dateParse := isoParse tz;
     randomOrder := fun l => l |}.

End IsoHost.

(** ** A sample catalog *)

Module Sample.

Definition scarf : Product :=
  {| id := "p1"; name := "Silk Scarf"; description := "Hand-rolled silk scarf";
     category := "accessories"; sub_category := None;
     tags := Some ["silk"; "gift"]; active := 1; featured := 1;
     publish_at := None; added_date := "2025-01-10" |}.

Definition dress : Product :=
  {| id := "p2"; name := "Linen Dress"; description := "Summer dress in linen";
     category := "dresses"; sub_category := Some "summer";
     tags := Some ["linen"; "casual"]; active := 1; featured := 0;
     publish_at := Some "2025-01-15T10:00:00";
     added_date := "2025-01-20T08:00:00" |}.

Definition tote : Product :=
  {| id := "p3"; name := "Canvas Tote"; description := "Everyday tote bag";
     category := "bags"; sub_category := None; tags := None;
     active := 0; featured := 1;
     publish_at := None; added_date := "2025-01-05" |}.

Definition boots : Product :=
  {| id := "p4"; name := "Ankle Boots"; description := "Leather ankle boots";
     category := "footwear"; sub_category := Some "winter";
     tags := Some ["leather"]; active := 1; featured := 1;
     publish_at := Some "2025-06-01T00:00:00";
     added_date := "2025-01-25" |}.

Definition kurta : Product :=
  {| id := "p5"; name := "Cotton Kurta"; description := "Block-printed kurta";
     category := "dresses"; sub_category := None;
     tags := Some ["cotton"]; active := 1; featured := 0;
     publish_at := Some "coming soon";
     added_date := "2025-01-28" |}.

Definition products : list Product := [scarf; dress; tote; boots; kurta].

Definition categories : list Category :=
  [ {| cat_id := "dresses"; cat_label := "Dresses" |};
    {| cat_id := "footwear"; cat_label := "Footwear" |};
    {| cat_id := "accessories"; cat_label := "Accessories" |};
    {| cat_id := "bags"; cat_label := "Bags" |} ].

Definition home : HomeData :=
  {| hero_enabled := 1; hero_slides := ["/home/women/img/hero1.jpg"] |}.

(** 2025-02-01T00:00:00Z, in a browser set to Indian Standard Time. *)
Definition host : Host := IsoHost.at_ 1738368000000 (-330).

(** The three files are served. *)
Definition online : Store.Network :=
  {| Store.productsRes := Some {| Store.ok := true; Store.json := Some products |};
     Store.categoriesRes := Some {| Store.ok := true; Store.json := Some categories |};
     Store.homeRes := Some {| Store.ok := true; Store.json := Some home |} |}.

(** The network is down: every [fetch] rejects. *)
Definition offline : Store.Network :=
  {| Store.productsRes := None; Store.categoriesRes := None; Store.homeRes := None |}.

(** The module after a first successful load. *)
Definition loaded : Store.State := (Store.loadAllData online Store.initial).2.

End Sample.

(** ** The rest of the public API of [CaspianData] *)

Module CaspianData.

(** [filterProducts(products, selectedTags, selectedSubCats)]: the predicate
    of its filter. A product without [tags] matches no tag, and a product
    without [sub_category] is in no selection. *)
Definition matchesFilters (selectedTags selectedSubCats : list string)
    (product : Product) : bool :=
  let matchesTags :=
    if negb (length selectedTags =? 0)%nat then
      forallb (fun tag =>
                 match tags product with
                 | Some ts => bool_decide (tag ∈ ts)
                 | None => false
                 end) selectedTags
    else true in
  let matchesSubCat :=
    if negb (length selectedSubCats =? 0)%nat then
      match sub_category product with
      | Some sc => bool_decide (sc ∈ selectedSubCats)
      | None => false
      end
    else true in
  matchesTags && matchesSubCat.

Definition filterProducts (products : list Product)
    (selectedTags selectedSubCats : list string) : list Product :=
  if (length selectedTags =? 0)%nat && (length selectedSubCats =? 0)%nat
  then products
  else List.filter (matchesFilters selectedTags selectedSubCats) products.

(** On the store: without a selection the array passed in is returned
    itself; otherwise [filter] builds a new one. *)
Definition filterProductsRef (products : Store.loc)
    (selectedTags selectedSubCats : list string) : Store.M Store.loc :=
  if (length selectedTags =? 0)%nat && (length selectedSubCats =? 0)%nat
  then mret products
  else Store.filterArray (matchesFilters selectedTags selectedSubCats) products.








(** [c.toUpperCase()] for one code unit, as a string: the letters a-z and
    the Latin-1 small letters U+00E0..U+00FE except the division sign
    U+00F7 have a capital 32 below, and the sharp s becomes [SS]. The
    capitals of U+00B5 and U+00FF are not below 256: the properties of
    [formatDisplayText] are stated for ASCII text. *)
Definition upperChar (c : ascii) : string :=
  let n := nat_of_ascii c in
  if ((97 <=? n)%nat && (n <=? 122)%nat)
     || ((224 <=? n)%nat && (n <=? 254)%nat && negb (n =? 247)%nat)
  then String (ascii_of_nat (n - 32)) EmptyString
  else if (n =? 223)%nat then "SS"%string
  else String c EmptyString.

(** [text.replace(/[-_]/g, " ")]. *)
Fixpoint replaceSeparators (s : string) : string :=
  match s with
  | EmptyString => EmptyString
  | String c r =>
      String (if bool_decide (c = "-"%char) || bool_decide (c = "_"%char)
              then " "%char else c)
             (replaceSeparators r)
  end.

(** [s.split(" ")]: the pieces between the spaces; never an empty array. *)
Fixpoint split (s : string) : list string :=
  match s with
  | EmptyString => [EmptyString]
  | String c r =>
      if bool_decide (c = " "%char) then EmptyString :: split r
      else
        match split r with
        | w :: ws => String c w :: ws
        | [] => [String c EmptyString]
        end
  end.

(** [ws.join(" ")]. *)
Fixpoint join (ws : list string) : string :=
  match ws with
  | [] => EmptyString
  | [w] => w
  | w :: r => w +:+ " " +:+ join r
  end.

(** [word.charAt(0).toUpperCase() + word.slice(1).toLowerCase()]. *)
Definition capitalize (word : string) : string :=
  match word with
  | EmptyString => EmptyString
  | String c r => upperChar c +:+ JsString.toLowerCase r
  end.

Definition formatDisplayText (text0 : string) : string :=
  if negb (JsString.truthy text0) then EmptyString
  else join (map capitalize (split (replaceSeparators text0))).

End CaspianData.

(** ** The home page: the hero slider *)

Module HomePage.

(** [nextSlide]: [(currentSlide + 1) % slides.length]; [%] is the
    remainder of the truncated division. *)
Definition nextSlide (slidesLength currentSlide : Z) : Z :=
  Z.rem (currentSlide + 1) slidesLength.

End HomePage.

(** ** The deals page

    The page keeps its state in the variables [allDeals], [filteredDeals],
    [selectedCategories], [selectedTags] and [currentSort]. What an event
    handler reads from the document, the state of a checkbox or the value of
    the sort select, is an argument of the handler here. The pages read two
    fields of a product that the data layer does not: [price], a string, and
    [rating], a number; they are functions of the product. *)

Module DealsPage.

Record State := {
  allDeals : list Product;
  filteredDeals : list Product;
  selectedCategories : list string;
  selectedTags : list string;
  currentSort : string
}.

Definition digitValue (c : ascii) : option Z :=
  let n := Z.of_nat (nat_of_ascii c) in
  if (48 <=? n) && (n <=? 57) then Some (n - 48) else None.

(** [s.replace(/[^\d]/g, "")]: the digits of [s], in order. *)
Fixpoint digitsOf (s : string) : list Z :=
  match s with
  | EmptyString => []
  | String c r =>
      match digitValue c with
      | Some d => d :: digitsOf r
      | None => digitsOf r
      end
  end.

(** [parseInt] of a string of digits: NaN ([None]) when there is none. *)
Definition parsePrice (s : string) : option Z :=
  match digitsOf s with
  | [] => None
  | ds => Some (fold_left (fun acc d => acc * 10 + d) ds 0)
  end.

(** [l.includes(x)] on an array of strings. *)
Definition includes (l : list string) (x : string) : bool := bool_decide (x ∈ l).

Section Page.
Context (h : Host).
Context (price : Product -> string) (rating : Product -> QArith_base.Q).

Definition priceOf (p : Product) : option Z := parsePrice (price p).

(** [sorted.sort(...)] for the value of the sort select; a value that is
    none of the four cases leaves the order as it is. [b.rating - a.rating]
    is given by the numerator of the difference, which has its sign. *)
Definition sortBy (sortValue : string) (sorted : list Product) : list Product :=
  if bool_decide (sortValue = "newest"%string) then
    JsArray.sort (fun a b => dateSub (dateParse h (added_date b))
                                     (dateParse h (added_date a))) sorted
  else if bool_decide (sortValue = "price-low"%string) then
    JsArray.sort (fun a b => dateSub (priceOf a) (priceOf b)) sorted
  else if bool_decide (sortValue = "price-high"%string) then
    JsArray.sort (fun a b => dateSub (priceOf b) (priceOf a)) sorted
  else if bool_decide (sortValue = "rating"%string) then
    JsArray.sort
      (fun a b => Some (QArith_base.Qnum (QArith_base.Qminus (rating b) (rating a))))
      sorted
  else sorted.

Definition applySorting (sortValue : string) (st : State) : State :=
  let sorted := filteredDeals st in
  {| allDeals := allDeals st;
     filteredDeals := sortBy sortValue sorted;
     selectedCategories := selectedCategories st;
     selectedTags := selectedTags st;
     currentSort := sortValue |}.

(** The products that [applyFilters] keeps, before they are sorted. *)
Definition matching (st : State) : list Product :=
  let products := allDeals st in
  let products :=
    if (0 <? length (selectedCategories st))%nat then
      List.filter (fun p => includes (selectedCategories st) (category p)) products
    else products in
  if (0 <? length (selectedTags st))%nat then
    List.filter
      (fun p => forallb (fun tag => match tags p with
                                    | Some ts => includes ts tag
                                    | None => false
                                    end) (selectedTags st)) products
  else products.

Definition applyFilters (sortValue : string) (st : State) : State :=
  applySorting sortValue
    {| allDeals := allDeals st;
       filteredDeals := matching st;
       selectedCategories := selectedCategories st;
       selectedTags := selectedTags st;
       currentSort := currentSort st |}.

Definition withSelectedCategories (l : list string) (st : State) : State :=
  {| allDeals := allDeals st; filteredDeals := filteredDeals st;
     selectedCategories := l; selectedTags := selectedTags st;
     currentSort := currentSort st |}.

Definition withSelectedTags (l : list string) (st : State) : State :=
  {| allDeals := allDeals st; filteredDeals := filteredDeals st;
     selectedCategories := selectedCategories st; selectedTags := l;
     currentSort := currentSort st |}.

(** [checked] is the state of the checkbox of the category. *)
Definition handleCategoryChange (categoryId : string) (checked : bool)
    (sortValue : string) (st : State) : State :=
  let st :=
    if checked then
      if negb (includes (selectedCategories st) categoryId)
      then withSelectedCategories (selectedCategories st ++ [categoryId]) st
      else st
    else
      withSelectedCategories
        (List.filter (fun c => negb (bool_decide (c = categoryId)))
                     (selectedCategories st)) st in
  applyFilters sortValue st.

Definition handleTagChange (tag : string) (checked : bool)
    (sortValue : string) (st : State) : State :=
  let st :=
    if checked then
      if negb (includes (selectedTags st) tag)
      then withSelectedTags (selectedTags st ++ [tag]) st
      else st
    else
      withSelectedTags
        (List.filter (fun t => negb (bool_decide (t = tag))) (selectedTags st)) st in
  applyFilters sortValue st.

Definition removeFilter (type value : string) (sortValue : string) (st : State)
  : State :=
  let st :=
    if bool_decide (type = "category"%string) then
      withSelectedCategories
        (List.filter (fun c => negb (bool_decide (c = value)))
                     (selectedCategories st)) st
    else if bool_decide (type = "tag"%string) then
      withSelectedTags
        (List.filter (fun t => negb (bool_decide (t = value))) (selectedTags st)) st
    else st in
  applyFilters sortValue st.

Definition clearAllFilters (sortValue : string) (st : State) : State :=
  applyFilters sortValue (withSelectedTags [] (withSelectedCategories [] st)).

(** The start of the page, once the data is loaded:
    [allDeals = CaspianData.getFeaturedProducts()] and [applyFilters()]. *)
Definition start (productsData : list Product) (sortValue : string) : State :=
  applyFilters sortValue
    {| allDeals := Views.getFeaturedProducts h productsData;
       filteredDeals := []; selectedCategories := []; selectedTags := [];
       currentSort := "newest" |}.

(** [initializeFilters]: the categories offered as filters. The array
    built from the [Set] of the categories of the deals is only searched,
    so its order does not matter. *)
Definition filterCategories (productsData : list Product)
    (categoriesData : list Category) (deals : list Product) : list Category :=
  let categoryIds := map category deals in
  List.filter (fun cat => includes categoryIds (cat_id cat))
              (Views.getAllCategories h productsData categoriesData).

(** What [updateResultsCount] shows: the two numbers of "Showing [count]
    of [total] featured products", or nothing when there is no deal. *)
Definition resultsCount (st : State) : option (nat * nat) :=
  let count := length (filteredDeals st) in
  let total := length (allDeals st) in
  if (total =? 0)%nat then None else Some (count, total).

(** An event on the page. *)
Inductive Event :=
| CategoryChange (categoryId : string) (checked : bool) (sortValue : string)
| TagChange (tag : string) (checked : bool) (sortValue : string)
| SortChange (sortValue : string)
| RemoveFilter (type value : string) (sortValue : string)
| ClearAllFilters (sortValue : string).

Definition handle (e : Event) (st : State) : State :=
  match e with
  | CategoryChange c checked v => handleCategoryChange c checked v st
  | TagChange t checked v => handleTagChange t checked v st
  | SortChange v => applySorting v st
  | RemoveFilter type value v => removeFilter type value v st
  | ClearAllFilters v => clearAllFilters v st
  end.

Definition run (events : list Event) (st : State) : State :=
  fold_left (fun st e => handle e st) events st.

End Page.
End DealsPage.

(** ** The category page

    Its [applyFilters] reads [allCategoryProducts], [selectedSubCategories]
    and [selectedTags] and sets [filteredProducts]; its [applySorting] is,
    word for word, the one of the deals page. *)

Module CategoryPage.
Section Page.
Context (h : Host).
Context (price : Product -> string) (rating : Product -> QArith_base.Q).

(** The products that [applyFilters] keeps, before they are sorted. *)
Definition matching (allCategoryProducts : list Product)
    (selectedSubCategories selectedTags : list string) : list Product :=
  let products := allCategoryProducts in
  let products :=
    if (0 <? length selectedSubCategories)%nat then
      List.filter
        (fun p => match sub_category p with
                  | Some sc => DealsPage.includes selectedSubCategories sc
                  | None => false
                  end) products
    else products in
  if (0 <? length selectedTags)%nat then
    List.filter
      (fun p => forallb (fun tag => match tags p with
                                    | Some ts => DealsPage.includes ts tag
                                    | None => false
                                    end) selectedTags) products
  else products.

(** The new value of [filteredProducts]. *)
Definition applyFilters (sortValue : string) (allCategoryProducts : list Product)
    (selectedSubCategories selectedTags : list string) : list Product :=
  DealsPage.sortBy h price rating sortValue
    (matching allCategoryProducts selectedSubCategories selectedTags).

End Page.
End CategoryPage.

(** The deals of a small shop window, with their prices and ratings. *)
Module DealsSample.

Definition price (p : Product) : string :=
  if bool_decide (id p = "p1"%string) then "Rs. 1,299"
  else if bool_decide (id p = "p2"%string) then "Rs. 2,450"
  else if bool_decide (id p = "p4"%string) then "Rs. 3,999"
  else "Rs. 899".

Definition rating (p : Product) : QArith_base.Q :=
  if bool_decide (id p = "p1"%string) then QArith_base.Qmake 45 10
  else if bool_decide (id p = "p2"%string) then QArith_base.Qmake 48 10
  else QArith_base.Qmake 4 1.

(** A catalog of four featured products on sale. *)
Definition stole : Product :=
  {| id := "p7"; name := "Wool Stole"; description := "Soft wool stole";
     category := "accessories"; sub_category := None;
     tags := Some ["wool"; "gift"]; active := 1; featured := 1;
     publish_at := None; added_date := "2025-01-12" |}.

Definition gown : Product :=
  {| id := "p2"; name := "Silk Gown"; description := "Evening gown";
     category := "dresses"; sub_category := None;
     tags := Some ["silk"; "gift"]; active := 1; featured := 1;
     publish_at := None; added_date := "2025-01-18" |}.

Definition products : list Product :=
  [Sample.scarf; gown; Sample.boots; stole; Sample.dress].

End DealsSample.

(** * Vocabulary of the properties *)

(** [r] consists of exactly those elements of [l] that satisfy [P], in the
    order of [l]: it is the largest sublist of [l] whose elements all
    satisfy [P]. *)
Definition exactlyThose {A : Type} (P : A -> Prop) (l r : list A) : Prop :=
  sublist r l /\ Forall P r /\
  forall r', sublist r' l -> Forall P r' -> sublist r' r.

(** A product is visible: active and published. *)
Definition visible (h : Host) (p : Product) : Prop :=
  active p = 1 /\ Views.isProductPublished h p = true.

(** [p] is the product that [find] matches: the first one of the catalog
    with the given id. *)
Definition firstWithId (productsData : list Product) (i : string) (p : Product) : Prop :=
  exists pre post,
    productsData = pre ++ p :: post /\ id p = i /\ Forall (fun q => id q <> i) pre.

(** [s] contains [t] as a substring, letter case ignored. *)
Definition containsIgnoringCase (s t : string) : Prop :=
  exists pre mid post,
    s = pre +:+ mid +:+ post /\
    JsString.toLowerCase mid = JsString.toLowerCase t.

(** The product matches the term in its name, description or category, in
    its sub-category when it has one, or in one of its tags. *)
Definition matchesTerm (term : string) (p : Product) : Prop :=
  containsIgnoringCase (name p) term
  \/ containsIgnoringCase (description p) term
  \/ containsIgnoringCase (category p) term
  \/ (exists sc, sub_category p = Some sc /\ containsIgnoringCase sc term)
  \/ (exists ts tag, tags p = Some ts /\ tag ∈ ts /\ containsIgnoringCase tag term).

(** [a] comes no later than [b] in descending order of [key]. *)
Definition descending {A : Type} (key : A -> option Z) (a b : A) : Prop :=
  exists ta tb, key a = Some ta /\ key b = Some tb /\ tb <= ta.

(** [a] was added at the same time as [b] or later. *)
Definition addedNoEarlier (h : Host) (a b : Product) : Prop :=
  exists ta tb,
    dateParse h (added_date a) = Some ta /\
    dateParse h (added_date b) = Some tb /\ tb <= ta.

(** What is said of [getRecentlyAddedProducts(n)]: at most [n] products,
    all active and published, and, when every [added_date] of the catalog
    is a valid date, newest first with nothing newer left out. *)
Definition recentlyAddedSpec (h : Host) (productsData : list Product) (n : Z) : Prop :=
  let result := Views.getRecentlyAddedProducts h productsData (Some n) in
  Z.of_nat (length result) <= n
  /\ (forall p, p ∈ result ->
        p ∈ productsData /\ active p = 1 /\ Views.isProductPublished h p = true)
  /\ ((forall p, p ∈ productsData -> is_Some (dateParse h (added_date p))) ->
      StronglySorted (addedNoEarlier h) result
      /\ exists omitted,
           result ++ omitted ≡ₚ Views.getAllActiveProducts h productsData
           /\ forall x o, x ∈ result -> o ∈ omitted -> addedNoEarlier h x o).

(** A query ran from [s] to [s'] returning [r]: the store has only grown,
    the closure variables are as before, and [r] refers to the array [a]. *)
Definition ranTo (s : Store.State) (res : Store.loc * Store.State) (a : Store.Arr) : Prop :=
  exists ext,
    res.2 = Store.withHeap (Store.heap s ++ ext) s /\
    (Store.heap s ++ ext) !! res.1 = Some a.

(** The array arguments of a query are arrays of the store. *)
Definition argsIn (q : Store.Query) (s : Store.State) : Prop :=
  match q with
  | Store.QUniqueTags l | Store.QUniqueSubCategories l =>
      (l < length (Store.heap s))%nat
  | _ => True
  end.

(** The three files are fetched and parse to the given data. *)
Definition served (net : Store.Network)
    (ps : list Product) (cs : list Category) (hd : HomeData) : Prop :=
  Store.productsRes net = Some {| Store.ok := true; Store.json := Some ps |}
  /\ Store.categoriesRes net = Some {| Store.ok := true; Store.json := Some cs |}
  /\ Store.homeRes net = Some {| Store.ok := true; Store.json := Some hd |}.

(** The three URLs, in the order [loadAllData] fetches them. *)
Definition catalogUrls : list string :=
  [Store.productsUrl; Store.categoriesUrl; Store.homeUrl].

(** The product carries every selected tag, and, when sub-categories are
    selected, a sub-category among them. *)
Definition passesFilters (selectedTags selectedSubCats : list string)
    (p : Product) : Prop :=
  (forall tag, tag ∈ selectedTags -> exists ts, tags p = Some ts /\ tag ∈ ts)
  /\ (selectedSubCats <> [] ->
      exists sc, sub_category p = Some sc /\ sc ∈ selectedSubCats).

(** [a] comes strictly before [b] in the order of the code units. *)
Definition codeUnitLt (a b : string) : Prop := String.compare a b = Lt.

(** Every code unit of [s] satisfies [P]. *)
Fixpoint allChars (P : ascii -> bool) (s : string) : bool :=
  match s with
  | EmptyString => true
  | String c r => P c && allChars P r
  end.

(** ASCII text: every code unit is below 128. *)
Definition isAsciiChar (c : ascii) : bool := (nat_of_ascii c <? 128)%nat.
Definition isAsciiText (s : string) : Prop := allChars isAsciiChar s = true.

(** Neither a hyphen nor an underscore. *)
Definition notSeparator (c : ascii) : bool :=
  negb (bool_decide (c = "-"%char)) && negb (bool_decide (c = "_"%char)).


(** The deal passes the selections of the deals page: its category is
    selected, when any is, and it carries every selected tag. *)
Definition dealMatches (st : DealsPage.State) (p : Product) : Prop :=
  (DealsPage.selectedCategories st <> [] ->
   category p ∈ DealsPage.selectedCategories st)
  /\ (forall tag, tag ∈ DealsPage.selectedTags st ->
                  exists ts, tags p = Some ts /\ tag ∈ ts).

(** What every handler of the deals page keeps: the deals, selections
    without repetition, and a display that shows, in some order, the deals
    matching the selections. *)
Definition pageInv (deals : list Product) (st : DealsPage.State) : Prop :=
  DealsPage.allDeals st = deals
  /\ NoDup (DealsPage.selectedCategories st)
  /\ NoDup (DealsPage.selectedTags st)
  /\ DealsPage.filteredDeals st ≡ₚ DealsPage.matching st.

(** * Properties *)

(** ** Lists *)

Section ListFacts.
Context {A : Type}.
Implicit Types (f g : A -> bool) (l r : list A).

Lemma filter_sublist f l : sublist (List.filter f l) l.
Proof.
  induction l as [|x l IH]; simpl.
  - constructor.
  - destruct (f x); by constructor.
Qed.

Lemma filter_largest f l r :
  sublist r l -> Forall (fun x => f x = true) r -> sublist r (List.filter f l).
Proof.
  induction 1 as [|x r l _ IH|x r l _ IH]; intros HP; simpl.
  - constructor.
  - inversion HP as [|? ? Hx Hr]; subst. rewrite Hx. constructor. by apply IH.
  - destruct (f x); [constructor|]; by apply IH.
Qed.

Lemma filter_exactlyThose f (P : A -> Prop) l :
  (forall x, f x = true <-> P x) -> exactlyThose P l (List.filter f l).
Proof.
  intros HfP. split; [apply filter_sublist|]. split.
  - apply Forall_forall. intros x Hx. apply list_elem_of_In, filter_In in Hx.
    apply HfP, Hx.
  - intros r Hsub HP. apply filter_largest; [done|].
    eapply Forall_impl; [exact HP|]. intros x. apply HfP.
Qed.

(** The description determines the list. *)
Lemma exactlyThose_unique (P : A -> Prop) l r1 r2 :
  exactlyThose P l r1 -> exactlyThose P l r2 -> r1 = r2.
Proof.
  intros (S1 & P1 & M1) (S2 & P2 & M2).
  apply (anti_symm sublist); [by apply M2 | by apply M1].
Qed.

Lemma filter_filter f g l :
  List.filter g (List.filter f l) = List.filter (fun x => f x && g x) l.
Proof.
  induction l as [|x l IH]; simpl; [done|].
  destruct (f x); simpl; [destruct (g x)|]; by rewrite IH.
Qed.

Lemma find_None f l :
  JsArray.find f l = None <-> Forall (fun x => f x = false) l.
Proof.
  induction l as [|x l IH]; simpl.
  - split; [constructor | done].
  - destruct (f x) eqn:E.
    + split; [done|]. inversion 1; congruence.
    + rewrite IH. split; [by constructor | by inversion 1].
Qed.

Lemma find_Some f l x :
  JsArray.find f l = Some x <->
  exists pre post, l = pre ++ x :: post /\ f x = true /\
                   Forall (fun y => f y = false) pre.
Proof.
  induction l as [|y l IH]; simpl.
  - split; [done|]. intros (pre & post & E & _). by destruct pre.
  - destruct (f y) eqn:E.
    + split.
      * intros [= ->]. exists [], l. by repeat split.
      * intros ([|z pre] & post & El & Hx & Hpre); simpl in El.
        -- congruence.
        -- inversion Hpre; subst. congruence.
    + rewrite IH. split.
      * intros (pre & post & -> & Hx & Hpre). exists (y :: pre), post.
        repeat split; [done|]. by constructor.
      * intros ([|z pre] & post & El & Hx & Hpre); simpl in El.
        -- congruence.
        -- injection El as -> ->. exists pre, post. repeat split; [done|].
           by inversion Hpre.
Qed.

End ListFacts.

(** ** Scheduled publishing *)

Section Publishing.
Import Views.
Context (h : Host).

Lemma isProductPublished_no_publish_at product :
  publish_at product = None -> isProductPublished h product = true.
Proof. unfold isProductPublished. by intros ->. Qed.

Lemma isProductPublished_empty_publish_at product :
  publish_at product = Some EmptyString -> isProductPublished h product = true.
Proof. unfold isProductPublished. by intros ->. Qed.

(** With a non-empty [publish_at] the comparison of the two dates decides. *)
Lemma isProductPublished_scheduled product s :
  publish_at product = Some s -> s <> EmptyString ->
  isProductPublished h product = dateGe (getCurrentIST h) (dateParse h s).
Proof.
  unfold isProductPublished, JsString.truthy. intros -> Hs.
  by rewrite bool_decide_eq_false_2.
Qed.

Lemma isProductPublished_parsed product s t :
  publish_at product = Some s -> s <> EmptyString -> dateParse h s = Some t ->
  isProductPublished h product = true <->
  exists ist, getCurrentIST h = Some ist /\ t <= ist.
Proof.
  intros Hp Hs Ht. rewrite (isProductPublished_scheduled _ _ Hp Hs), Ht.
  unfold dateGe. destruct (getCurrentIST h) as [ist|].
  - rewrite Z.leb_le. split; [eauto|]. by intros (? & [= <-] & ?).
  - split; [done|]. by intros (? & ? & _).
Qed.

Lemma dateGe_invalid_r a : dateGe a None = false.
Proof. by destruct a. Qed.

Lemma isProductPublished_invalid product s :
  publish_at product = Some s -> JsString.truthy s = true ->
  dateParse h s = None ->
  isProductPublished h product = false.
Proof.
  intros Hp Hs Hparse.
  assert (s <> EmptyString) as Hne by (by intros ->).
  rewrite (isProductPublished_scheduled _ _ Hp Hne), Hparse.
  apply dateGe_invalid_r.
Qed.

(** Such a product is in no view and cannot be looked up. *)
Lemma invalid_publish_at_not_listed productsData product s :
  publish_at product = Some s -> JsString.truthy s = true ->
  dateParse h s = None ->
  (product ∉ getAllActiveProducts h productsData)
  /\ getProductById h productsData (id product) <> Some product.
Proof.
  intros Hp Hs Hparse.
  pose proof (isProductPublished_invalid _ _ Hp Hs Hparse) as Hpub.
  split.
  - intros Hin. unfold getAllActiveProducts in Hin.
    apply list_elem_of_In, filter_In in Hin as [_ Hin].
    apply andb_true_iff in Hin as [_ Hin]. congruence.
  - unfold getProductById. destruct (JsArray.find _ productsData) as [q|]; [|done].
    destruct (negb (active q =? 1) || negb (isProductPublished h q)) eqn:E; [done|].
    intros [= ->]. rewrite Hpub in E. simpl in E. by rewrite orb_true_r in E.
Qed.

End Publishing.

(** C1. The source means to show a product whose [publish_at] is not a
    date (its [catch] branch returns true, "Fallback: show product if
    publish_at is invalid"), but [new Date] does not throw on such a string:
    it yields the Invalid Date, the comparison [currentIST >= publishTime]
    is then false, and [isProductPublished] returns false, so the product is
    hidden instead of shown. *)
Theorem isProductPublished_unparsable_is_hidden (h : Host) (product : Product) (s : string) :
  publish_at product = Some s ->
  JsString.truthy s = true ->
  dateParse h s = None ->
  Views.isProductPublished h product = false.
Proof. apply isProductPublished_invalid. Qed.

Lemma isProductPublished_unparsable_witness :
  publish_at Sample.kurta = Some "coming soon"%string
  /\ JsString.truthy "coming soon" = true
  /\ dateParse Sample.host "coming soon" = None
  /\ Views.isProductPublished Sample.host Sample.kurta = false.
Proof.
  split; [reflexivity|]. split; [reflexivity|]. split; [reflexivity|].
  apply (isProductPublished_unparsable_is_hidden Sample.host Sample.kurta "coming soon");
    reflexivity.
Defined.

(** The same product with a date that has passed is shown, and with no
    [publish_at] at all it is shown. *)
Example isProductPublished_sample :
  Views.isProductPublished Sample.host Sample.dress = true
  /\ Views.isProductPublished Sample.host Sample.boots = false
  /\ Views.isProductPublished Sample.host Sample.scarf = true.
Proof. by repeat split. Qed.

(** ** The product views *)

Section ProductViews.
Import Views.
Context (h : Host) (productsData : list Product).

Lemma visible_spec p :
  (active p =? 1) && isProductPublished h p = true <-> visible h p.
Proof. unfold visible. by rewrite andb_true_iff, Z.eqb_eq. Qed.

Lemma getAllActiveProducts_elem p :
  p ∈ getAllActiveProducts h productsData <-> p ∈ productsData /\ visible h p.
Proof.
  unfold getAllActiveProducts.
  by rewrite !list_elem_of_In, filter_In, visible_spec.
Qed.

End ProductViews.

(** C2. [getAllActiveProducts] returns exactly the products of the catalog
    whose [active] field is 1 and for which [isProductPublished] holds, in
    catalog order, and no others. *)
Theorem getAllActiveProducts_exactly (h : Host) (productsData : list Product) :
  exactlyThose
    (fun p => active p = 1 /\ Views.isProductPublished h p = true)
    productsData
    (Views.getAllActiveProducts h productsData)
  /\ (forall p, p ∈ Views.getAllActiveProducts h productsData <->
                p ∈ productsData /\ active p = 1 /\
                Views.isProductPublished h p = true).
Proof.
  split.
  - apply filter_exactlyThose. intros p. apply visible_spec.
  - intros p. apply getAllActiveProducts_elem.
Qed.

Example getAllActiveProducts_sample :
  Views.getAllActiveProducts Sample.host Sample.products
  = [Sample.scarf; Sample.dress].
Proof. reflexivity. Qed.

(** C6. [getFeaturedProducts] returns exactly the active, published
    products whose [featured] field is 1, and each of them is in the result
    of [getAllActiveProducts]. *)
Theorem getFeaturedProducts_exactly (h : Host) (productsData : list Product) :
  exactlyThose
    (fun p => (active p = 1 /\ Views.isProductPublished h p = true) /\ featured p = 1)
    productsData
    (Views.getFeaturedProducts h productsData)
  /\ exactlyThose (fun p => featured p = 1)
       (Views.getAllActiveProducts h productsData)
       (Views.getFeaturedProducts h productsData)
  /\ (forall p, p ∈ Views.getFeaturedProducts h productsData ->
                p ∈ Views.getAllActiveProducts h productsData).
Proof.
  unfold Views.getFeaturedProducts. split; [|split].
  - unfold Views.getAllActiveProducts. rewrite filter_filter.
    apply filter_exactlyThose. intros p.
    by rewrite andb_true_iff, visible_spec, Z.eqb_eq.
  - apply filter_exactlyThose. intros p. apply Z.eqb_eq.
  - intros p Hp. apply list_elem_of_In, filter_In in Hp.
    apply list_elem_of_In, Hp.
Qed.

Lemma getFeaturedProducts_witness :
  Views.getFeaturedProducts Sample.host Sample.products = [Sample.scarf]
  /\ Sample.scarf ∈ Views.getAllActiveProducts Sample.host Sample.products.
Proof.
  split; [reflexivity|].
  apply (proj2 (proj2 (getFeaturedProducts_exactly Sample.host Sample.products))).
  apply list_elem_of_In. vm_compute. left. reflexivity.
Defined.

(** C5. [getAllCategories] returns exactly the entries of the category
    catalog whose [id] is the [category] of some active, published product,
    in catalog order; a category without such a product is not returned. *)
Theorem getAllCategories_exactly
    (h : Host) (productsData : list Product) (categoriesData : list Category) :
  exactlyThose
    (fun cat => exists p, p ∈ productsData /\ active p = 1 /\
                          Views.isProductPublished h p = true /\
                          category p = cat_id cat)
    categoriesData
    (Views.getAllCategories h productsData categoriesData)
  /\ (forall cat,
        (forall p, p ∈ Views.getAllActiveProducts h productsData ->
                   category p <> cat_id cat) ->
        cat ∉ Views.getAllCategories h productsData categoriesData).
Proof.
  assert (Hset : forall cat,
             bool_decide
               (cat_id cat ∈ (list_to_set
                  (map category (Views.getAllActiveProducts h productsData))
                  : gset string)) = true <->
             exists p, p ∈ productsData /\ active p = 1 /\
                       Views.isProductPublished h p = true /\
                       category p = cat_id cat).
  { intros cat. rewrite bool_decide_eq_true, elem_of_list_to_set, list_elem_of_In, in_map_iff.
    split.
    - intros (p & Hc & Hp). apply list_elem_of_In, getAllActiveProducts_elem in Hp.
      destruct Hp as (Hin & Ha & Hpub). eauto 6.
    - intros (p & Hin & Ha & Hpub & Hc). exists p. split; [done|].
      apply list_elem_of_In, getAllActiveProducts_elem. by repeat split. }
  split.
  - unfold Views.getAllCategories. by apply filter_exactlyThose.
  - intros cat Hnone Hin. unfold Views.getAllCategories in Hin.
    apply list_elem_of_In, filter_In in Hin. destruct Hin as [_ Hin].
    apply Hset in Hin. destruct Hin as (p & Hp & Ha & Hpub & Hc).
    apply (Hnone p); [|done]. apply getAllActiveProducts_elem. by repeat split.
Qed.

Lemma getAllCategories_witness :
  Views.getAllCategories Sample.host Sample.products Sample.categories
  = [ {| cat_id := "dresses"; cat_label := "Dresses" |};
      {| cat_id := "accessories"; cat_label := "Accessories" |} ]
  /\ {| cat_id := "bags"; cat_label := "Bags" |}
       ∉ Views.getAllCategories Sample.host Sample.products Sample.categories.
Proof.
  split; [reflexivity|].
  apply (proj2 (getAllCategories_exactly Sample.host Sample.products Sample.categories)).
  intros p Hp. apply list_elem_of_In in Hp. vm_compute in Hp.
  destruct Hp as [<- | [<- | []]]; discriminate.
Defined.

(** ** Lookup by id *)

Lemma find_firstWithId productsData i p :
  JsArray.find (fun q => bool_decide (id q = i)) productsData = Some p <->
  firstWithId productsData i p.
Proof.
  rewrite find_Some. unfold firstWithId.
  split; intros (pre & post & E & Hp & Hpre); exists pre, post; (split; [done|]).
  - apply bool_decide_eq_true in Hp. split; [done|].
    eapply Forall_impl; [exact Hpre|]. intros q. apply bool_decide_eq_false.
  - split; [by apply bool_decide_eq_true|].
    eapply Forall_impl; [exact Hpre|]. intros q. apply bool_decide_eq_false.
Qed.

(** C9. [getProductById] returns null when no product has the id, and also
    when the matching product is inactive or not yet published; a result
    that is not null is an active, published product with that id. *)
Theorem getProductById_gated (h : Host) (productsData : list Product) (i : string) :
  (Views.getProductById h productsData i = None <->
     (forall p, p ∈ productsData -> id p <> i)
     \/ (exists p, firstWithId productsData i p /\
                   (active p <> 1 \/ Views.isProductPublished h p = false)))
  /\ (forall p, Views.getProductById h productsData i = Some p ->
                firstWithId productsData i p /\ p ∈ productsData /\ id p = i /\
                active p = 1 /\ Views.isProductPublished h p = true).
Proof.
  unfold Views.getProductById.
  destruct (JsArray.find _ productsData) as [q|] eqn:Hfind.
  - pose proof Hfind as Hfirst. apply find_firstWithId in Hfirst.
    assert (Hq : q ∈ productsData /\ id q = i).
    { destruct Hfirst as (pre & post & -> & Hid & _). split; [|done].
      apply elem_of_app. right. apply elem_of_cons. by left. }
    destruct (active q =? 1) eqn:Ha; simpl;
      [destruct (Views.isProductPublished h q) eqn:Hpub; simpl|].
    + apply Z.eqb_eq in Ha. split.
      * split; [done|]. intros [Hno | (p & Hp & Hbad)].
        -- destruct Hq as [Hin Hid]. by destruct (Hno q Hin).
        -- apply find_firstWithId in Hp. rewrite Hfind in Hp.
           injection Hp as <-. destruct Hbad; congruence.
      * intros p [= <-]. by repeat split; try apply Hq.
    + split; [|done]. split; [|done]. intros _. right. exists q. eauto.
    + apply Z.eqb_neq in Ha. split; [|done]. split; [|done].
      intros _. right. exists q. eauto.
  - split; [|done]. split; [|done]. intros _. left.
    apply find_None in Hfind. intros p Hp.
    eapply (proj1 (Forall_forall _ _)) in Hfind; [|exact Hp].
    by apply bool_decide_eq_false in Hfind.
Qed.

Lemma getProductById_witness :
  Views.getProductById Sample.host Sample.products "p9" = None
  /\ Views.getProductById Sample.host Sample.products "p3" = None
  /\ Views.getProductById Sample.host Sample.products "p4" = None
  /\ Views.getProductById Sample.host Sample.products "p2" = Some Sample.dress
  /\ active Sample.dress = 1
  /\ Views.isProductPublished Sample.host Sample.dress = true.
Proof.
  split; [reflexivity|].
  split.
  { apply (proj1 (getProductById_gated Sample.host Sample.products "p3")).
    right. exists Sample.tote. split.
    - exists [Sample.scarf; Sample.dress], [Sample.boots; Sample.kurta].
      split; [reflexivity|]. split; [reflexivity|].
      repeat constructor; discriminate.
    - left. discriminate. }
  split.
  { apply (proj1 (getProductById_gated Sample.host Sample.products "p4")).
    right. exists Sample.boots. split.
    - exists [Sample.scarf; Sample.dress; Sample.tote], [Sample.kurta].
      split; [reflexivity|]. split; [reflexivity|].
      repeat constructor; discriminate.
    - right. reflexivity. }
  split; [reflexivity|].
  destruct (proj2 (getProductById_gated Sample.host Sample.products "p2")
              Sample.dress eq_refl) as (_ & _ & _ & Ha & Hpub).
  by split.
Defined.

(** ** Products of a category *)

Lemma slice0_nonneg {A : Type} (l : list A) (n : Z) :
  0 <= n -> JsArray.slice0 l n = firstn (Z.to_nat n) l.
Proof.
  intros Hn. unfold JsArray.slice0.
  destruct (n <? 0) eqn:E; [apply Z.ltb_lt in E; lia|].
  destruct (Z.le_ge_cases n (Z.of_nat (length l))) as [Hle | Hge].
  - by rewrite Z.min_l.
  - rewrite Z.min_r, Nat2Z.id by done.
    rewrite !firstn_all2; [done | lia | done].
Qed.

(** C10. In [getProductsByCategory], a limit of 0 gives what the default
    null gives, all the active, published products of the category; a
    positive limit [n] gives the first [n] of them in catalog order, or all
    of them when there are fewer. *)
Theorem getProductsByCategory_limit (h : Host) (productsData : list Product) (c : string) :
  let all := Views.getProductsByCategory h productsData c None in
  exactlyThose
    (fun p => (active p = 1 /\ Views.isProductPublished h p = true) /\ category p = c)
    productsData all
  /\ Views.getProductsByCategory h productsData c (Some 0) = all
  /\ (forall n, 0 < n ->
        Views.getProductsByCategory h productsData c (Some n)
        = firstn (Z.to_nat n) all)
  /\ (forall n, 0 < n -> Z.of_nat (length all) <= n ->
        Views.getProductsByCategory h productsData c (Some n) = all).
Proof.
  assert (Hpos : forall n, 0 < n ->
    Views.getProductsByCategory h productsData c (Some n)
    = firstn (Z.to_nat n) (Views.getProductsByCategory h productsData c None)).
  { intros n Hn. unfold Views.getProductsByCategory.
    destruct (n =? 0) eqn:E; [apply Z.eqb_eq in E; lia|]. simpl.
    apply slice0_nonneg. lia. }
  cbv zeta. split; [|split; [|split]].
  - unfold Views.getProductsByCategory, Views.getAllActiveProducts.
    rewrite filter_filter. apply filter_exactlyThose. intros p.
    by rewrite andb_true_iff, visible_spec, bool_decide_eq_true.
  - done.
  - exact Hpos.
  - intros n Hn Hlen. rewrite (Hpos n Hn). apply firstn_all2. lia.
Qed.

Lemma getProductsByCategory_witness :
  Views.getProductsByCategory Sample.host (Sample.kurta :: Sample.products) "dresses" None
  = [Sample.dress]
  /\ Views.getProductsByCategory Sample.host
       (Sample.dress :: Sample.products) "dresses" (Some 0)
     = [Sample.dress; Sample.dress]
  /\ Views.getProductsByCategory Sample.host
       (Sample.dress :: Sample.products) "dresses" (Some 1)
     = [Sample.dress]
  /\ Views.getProductsByCategory Sample.host
       (Sample.dress :: Sample.products) "dresses" (Some 5)
     = [Sample.dress; Sample.dress].
Proof.
  split; [reflexivity|]. split; [reflexivity|].
  pose proof (getProductsByCategory_limit Sample.host
                (Sample.dress :: Sample.products) "dresses") as (_ & _ & Hn & Hall).
  split.
  - rewrite (Hn 1); [reflexivity | lia].
  - rewrite (Hall 5); [reflexivity | lia | vm_compute; discriminate].
Defined.

(** ** Strings *)

Section StringFacts.
Import JsString.

Lemma append_String a s t : String a s +:+ t = String a (s +:+ t).
Proof. reflexivity. Qed.

Lemma append_Empty t : EmptyString +:+ t = t.
Proof. reflexivity. Qed.

Ltac unfold_append := rewrite ?append_String, ?append_Empty in *; simpl in *.

Lemma lowerChar_idemp c : lowerChar (lowerChar c) = lowerChar c.
Proof. by destruct c as [[] [] [] [] [] [] [] []]. Qed.

Lemma isWhiteSpace_lowerChar c : isWhiteSpace (lowerChar c) = isWhiteSpace c.
Proof. by destruct c as [[] [] [] [] [] [] [] []]. Qed.

Lemma toLowerCase_idemp s : toLowerCase (toLowerCase s) = toLowerCase s.
Proof. induction s as [|c s IH]; simpl; [done|]. by rewrite lowerChar_idemp, IH. Qed.

Lemma toLowerCase_app a b : toLowerCase (a +:+ b) = toLowerCase a +:+ toLowerCase b.
Proof. induction a as [|c a IH]; unfold_append; [done|]. by rewrite IH. Qed.

Lemma toLowerCase_app_inv s x y :
  toLowerCase s = x +:+ y ->
  exists a b, s = a +:+ b /\ toLowerCase a = x /\ toLowerCase b = y.
Proof.
  revert s. induction x as [|c x IH]; intros s E; unfold_append.
  - by exists EmptyString, s.
  - destruct s as [|d s]; simpl in E; [done|]. injection E as Hc Hs.
    destruct (IH s Hs) as (a & b & -> & Ha & Hb).
    exists (String d a), b. unfold_append. by rewrite Hc, Ha.
Qed.

Lemma toLowerCase_empty s : toLowerCase s = EmptyString <-> s = EmptyString.
Proof. by destruct s. Qed.

Lemma trimStart_toLowerCase s : trimStart (toLowerCase s) = toLowerCase (trimStart s).
Proof.
  induction s as [|c s IH]; simpl; [done|].
  rewrite isWhiteSpace_lowerChar. by destruct (isWhiteSpace c).
Qed.

Lemma trimEnd_toLowerCase s : trimEnd (toLowerCase s) = toLowerCase (trimEnd s).
Proof.
  induction s as [|c s IH]; simpl; [done|].
  rewrite IH, isWhiteSpace_lowerChar.
  destruct (trimEnd s); simpl; [|done]. by destruct (isWhiteSpace c).
Qed.

(** Lower-casing and trimming commute. *)
Lemma trim_toLowerCase s : trim (toLowerCase s) = toLowerCase (trim s).
Proof. unfold trim. by rewrite trimStart_toLowerCase, trimEnd_toLowerCase. Qed.

Lemma trimStart_allWhiteSpace s : allWhiteSpace (trimStart s) = allWhiteSpace s.
Proof.
  induction s as [|c s IH]; simpl; [done|].
  destruct (isWhiteSpace c) eqn:E; simpl; [done|]. by rewrite E.
Qed.

Lemma trimEnd_empty s : trimEnd s = EmptyString <-> allWhiteSpace s = true.
Proof.
  induction s as [|c s IH]; simpl; [done|].
  destruct (trimEnd s) eqn:E.
  - destruct (isWhiteSpace c); simpl; [|done].
    split; [intros _; by apply IH | done].
  - split; [done|]. rewrite andb_true_iff. intros [_ H]. by apply IH in H.
Qed.

(** [trim] leaves nothing exactly when the string is white space only. *)
Lemma trim_empty s : trim s = EmptyString <-> allWhiteSpace s = true.
Proof. unfold trim. by rewrite trimEnd_empty, trimStart_allWhiteSpace. Qed.

Lemma startsWith_spec s t :
  startsWith s t = true <-> exists post, s = t +:+ post.
Proof.
  revert s. induction t as [|b t IH]; intros s; simpl.
  - split; [intros _; by exists s | done].
  - destruct s as [|a s]; simpl.
    + split; [done|]. intros (? & E). by rewrite append_String in E.
    + rewrite andb_true_iff, bool_decide_eq_true, IH. split.
      * intros (-> & post & ->). by exists post.
      * intros (post & E). rewrite append_String in E.
        injection E as -> ->. eauto.
Qed.

Lemma includes_spec s t :
  includes s t = true <-> exists pre post, s = pre +:+ t +:+ post.
Proof.
  induction s as [|a s IH].
  - simpl. rewrite orb_false_r, startsWith_spec. split.
    + intros (post & E). by exists EmptyString, post.
    + intros ([|? ?] & post & E); unfold_append; [eauto | done].
  - cbn [includes]. rewrite orb_true_iff, startsWith_spec, IH. split.
    + intros [(post & E) | (pre & post & ->)].
      * by exists EmptyString, post.
      * by exists (String a pre), post.
    + intros ([|c pre] & post & E); unfold_append.
      * left. eauto.
      * injection E as -> ->. right. eauto.
Qed.

(** Searching the lower-cased text for a lower-case term finds the term
    with its letter case ignored. *)
Lemma includes_toLowerCase s t :
  toLowerCase t = t ->
  includes (toLowerCase s) t = true <-> containsIgnoringCase s t.
Proof.
  intros Ht. rewrite includes_spec. unfold containsIgnoringCase. split.
  - intros (pre' & post' & E).
    apply toLowerCase_app_inv in E as (pre & r & -> & _ & E).
    apply toLowerCase_app_inv in E as (mid & post & -> & Hmid & _).
    exists pre, mid, post. split; [done|]. by rewrite Ht.
  - intros (pre & mid & post & -> & Hmid).
    exists (toLowerCase pre), (toLowerCase post).
    by rewrite !toLowerCase_app, Hmid, Ht.
Qed.

Lemma containsIgnoringCase_empty t :
  containsIgnoringCase EmptyString t -> t = EmptyString.
Proof.
  intros ([|? ?] & [|? ?] & post & E & Hmid); unfold_append; try done.
  by destruct t.
Qed.

End StringFacts.

(** ** Text search *)

Lemma matchesSearch_spec term p :
  JsString.toLowerCase term = term -> term <> EmptyString ->
  Views.matchesSearch term p = true <-> matchesTerm term p.
Proof.
  intros Hlow Hne. unfold Views.matchesSearch, matchesTerm.
  rewrite !orb_true_iff, !(includes_toLowerCase _ _ Hlow).
  assert (Hsub :
    match sub_category p with
    | Some sc => JsString.truthy sc
                 && JsString.includes (JsString.toLowerCase sc) term
    | None => false
    end = true <->
    exists sc, sub_category p = Some sc /\ containsIgnoringCase sc term).
  { destruct (sub_category p) as [sc|].
    - rewrite andb_true_iff, (includes_toLowerCase _ _ Hlow). split.
      + intros [_ H]. eauto.
      + intros (? & [= <-] & H). split; [|done].
        unfold JsString.truthy. apply negb_true_iff, bool_decide_eq_false.
        intros ->. by apply containsIgnoringCase_empty in H.
    - split; [done|]. by intros (? & ? & _). }
  assert (Htags :
    match tags p with
    | Some ts =>
        JsArray.some
          (fun tag => JsString.includes (JsString.toLowerCase tag) term) ts
    | None => false
    end = true <->
    exists ts tag, tags p = Some ts /\ tag ∈ ts /\ containsIgnoringCase tag term).
  { destruct (tags p) as [ts|].
    - unfold JsArray.some. rewrite existsb_exists. split.
      + intros (tag & Hin & H). exists ts, tag.
        by rewrite list_elem_of_In, <- (includes_toLowerCase _ _ Hlow).
      + intros (? & tag & [= <-] & Hin & H). exists tag.
        by rewrite <- list_elem_of_In, (includes_toLowerCase _ _ Hlow).
    - split; [done|]. by intros (? & ? & ? & _). }
  rewrite Hsub, Htags. tauto.
Qed.

(** C4. [searchProducts] returns the empty array for a query that is empty
    or white space only; for any other query it returns exactly the active,
    published products that contain the lower-cased, trimmed query, letter
    case ignored, in the name, the description, the category, the
    sub-category when present, or some tag. *)
Theorem searchProducts_exactly (h : Host) (productsData : list Product) (query : string) :
  (query = EmptyString \/ JsString.allWhiteSpace query = true ->
   Views.searchProducts h productsData query = [])
  /\ (JsString.allWhiteSpace query = false ->
      exactlyThose
        (fun p => (active p = 1 /\ Views.isProductPublished h p = true) /\
                  matchesTerm (JsString.toLowerCase (JsString.trim query)) p)
        productsData
        (Views.searchProducts h productsData query)).
Proof.
  unfold Views.searchProducts. split.
  - intros Hws.
    assert (JsString.allWhiteSpace query = true) as Hall
      by (destruct Hws as [-> | ?]; done).
    apply trim_empty in Hall. rewrite Hall.
    by rewrite bool_decide_eq_true_2, orb_true_r.
  - intros Hns.
    assert (Htrim : JsString.trim query <> EmptyString).
    { intros E. apply trim_empty in E. congruence. }
    assert (Hq : JsString.truthy query = true).
    { unfold JsString.truthy. apply negb_true_iff, bool_decide_eq_false.
      intros ->. done. }
    rewrite Hq, (bool_decide_eq_false_2 _ Htrim). simpl.
    rewrite trim_toLowerCase.
    unfold Views.getAllActiveProducts. rewrite filter_filter.
    apply filter_exactlyThose. intros p.
    rewrite andb_true_iff, visible_spec, matchesSearch_spec; [done| |].
    + apply toLowerCase_idemp.
    + intros E. by apply (proj1 (toLowerCase_empty _)) in E.
Qed.

Lemma searchProducts_witness :
  Views.searchProducts Sample.host Sample.products "   " = []
  /\ Views.searchProducts Sample.host Sample.products "  LINEN " = [Sample.dress]
  /\ exactlyThose
       (fun p => (active p = 1 /\ Views.isProductPublished Sample.host p = true) /\
                 matchesTerm "linen" p)
       Sample.products
       [Sample.dress].
Proof.
  split.
  { apply (proj1 (searchProducts_exactly Sample.host Sample.products "   ")).
    right. reflexivity. }
  split; [reflexivity|].
  apply (proj2 (searchProducts_exactly Sample.host Sample.products "  LINEN ")).
  reflexivity.
Defined.

(** ** Sorting by date *)

Section SortFacts.
Context {A : Type} (cmp : A -> A -> option Z).

Lemma insertSorted_Permutation x l : JsArray.insertSorted cmp x l ≡ₚ x :: l.
Proof.
  induction l as [|y l IH]; simpl; [done|].
  destruct (JsArray.after cmp x y); [|done].
  rewrite IH. apply Permutation_swap.
Qed.

(** [sort] only reorders, whatever the comparator. *)
Lemma sort_Permutation l : JsArray.sort cmp l ≡ₚ l.
Proof.
  induction l as [|x l IH]; simpl; [done|].
  by rewrite insertSorted_Permutation, IH.
Qed.

(** When the comparator is [key b - key a] on the elements of the array,
    the sorted array is in descending order of [key]. *)
Context (key : A -> option Z).
Hypothesis cmp_key : forall a b, cmp a b = dateSub (key b) (key a).

Lemma insertSorted_descending x l :
  is_Some (key x) -> Forall (fun a => is_Some (key a)) l ->
  StronglySorted (descending key) l ->
  StronglySorted (descending key) (JsArray.insertSorted cmp x l).
Proof.
  intros [tx Hx] Hl Hs. induction Hs as [|y l Hs IH Hy]; simpl.
  - repeat constructor.
  - inversion Hl as [|? ? [ty Hty] Hl']; subst.
    unfold JsArray.after. rewrite cmp_key, Hx, Hty. simpl.
    destruct (0 <? ty - tx) eqn:E.
    + apply Z.ltb_lt in E. constructor; [by apply IH|].
      apply Forall_forall. intros z Hz.
      rewrite insertSorted_Permutation in Hz.
      apply elem_of_cons in Hz as [-> | Hz].
      * exists ty, tx. repeat split; [done | done | lia].
      * eapply (proj1 (Forall_forall _ _)) in Hy; [exact Hy | done].
    + apply Z.ltb_ge in E. constructor; [by constructor|].
      constructor.
      * exists tx, ty. repeat split; [done | done | lia].
      * eapply Forall_impl; [exact Hy|]. intros z (ty' & tz & H1 & H2 & H3).
        exists tx, tz. repeat split; [done | done |].
        rewrite Hty in H1. injection H1 as <-. lia.
Qed.

Lemma sort_descending l :
  Forall (fun a => is_Some (key a)) l ->
  StronglySorted (descending key) (JsArray.sort cmp l).
Proof.
  induction 1 as [|x l Hx Hl IH]; simpl; [constructor|].
  apply insertSorted_descending; [done | | done].
  apply Forall_forall. intros z Hz. rewrite sort_Permutation in Hz.
  eapply (proj1 (Forall_forall _ _)) in Hl; [exact Hl | done].
Qed.

End SortFacts.

Lemma slice0_prefix {A : Type} (l : list A) (n : Z) :
  exists k, JsArray.slice0 l n = firstn k l.
Proof. unfold JsArray.slice0. eauto. Qed.

Lemma StronglySorted_firstn {A : Type} (R : A -> A -> Prop) (l : list A) k :
  StronglySorted R l -> StronglySorted R (firstn k l).
Proof.
  intros Hs. revert k. induction Hs as [|x l Hs IH Hx]; intros [|k]; simpl;
    try constructor; [apply IH|].
  apply Forall_forall. intros y Hy.
  eapply (proj1 (Forall_forall _ _)) in Hx; [exact Hx|].
  eapply subseteq_take, Hy.
Qed.

Lemma StronglySorted_split {A : Type} (R : A -> A -> Prop) (l : list A) k :
  StronglySorted R l ->
  forall x o, x ∈ firstn k l -> o ∈ skipn k l -> R x o.
Proof.
  intros Hs. revert k. induction Hs as [|y l Hs IH Hy]; intros k x o Hx Ho.
  - rewrite firstn_nil in Hx. by apply elem_of_nil in Hx.
  - destruct k as [|k]; simpl in *; [by apply elem_of_nil in Hx|].
    apply elem_of_cons in Hx as [-> | Hx]; [|by eapply IH].
    eapply (proj1 (Forall_forall _ _)) in Hy; [exact Hy|].
    eapply subseteq_drop, Ho.
Qed.

(** ** Recently added products *)

(** C7, as amended. For every limit [n] that is not negative,
    [getRecentlyAddedProducts(n)] returns at most [n] products, all active
    and published, and, when every [added_date] parses as a valid date,
    ordered from newest to oldest, no omitted active published product
    being newer than a returned one. *)
Theorem getRecentlyAddedProducts_newest_first
    (h : Host) (productsData : list Product) (n : Z) :
  0 <= n -> recentlyAddedSpec h productsData n.
Proof.
  intros Hn. unfold recentlyAddedSpec, Views.getRecentlyAddedProducts. simpl.
  set (act := Views.getAllActiveProducts h productsData).
  set (sorted := JsArray.sort (Views.addedDateCompare h) act).
  assert (Hperm : sorted ≡ₚ act) by apply sort_Permutation.
  destruct (slice0_prefix sorted n) as [k Hk].
  split; [|split].
  - rewrite slice0_nonneg by done. rewrite length_firstn. lia.
  - intros p Hp. rewrite Hk in Hp.
    assert (p ∈ act) as Hact.
    { rewrite <- Hperm. eapply subseteq_take, Hp. }
    by apply getAllActiveProducts_elem in Hact.
  - intros Hvalid.
    assert (Hs : StronglySorted (addedNoEarlier h) sorted).
    { apply (sort_descending (Views.addedDateCompare h)
               (fun p => dateParse h (added_date p))); [done|].
      apply Forall_forall. intros p Hp. apply Hvalid.
      by apply getAllActiveProducts_elem in Hp as [? _]. }
    rewrite Hk. split.
    + by apply StronglySorted_firstn.
    + exists (skipn k sorted). split.
      * by rewrite firstn_skipn.
      * by apply StronglySorted_split.
Qed.

Lemma getRecentlyAddedProducts_witness :
  0 <= 1
  /\ (forall p, p ∈ Sample.products ->
                is_Some (dateParse Sample.host (added_date p)))
  /\ Views.getRecentlyAddedProducts Sample.host Sample.products (Some 1)
     = [Sample.dress]
  /\ recentlyAddedSpec Sample.host Sample.products 1.
Proof.
  split; [lia|]. split.
  { intros p Hp. apply list_elem_of_In in Hp. vm_compute in Hp.
    destruct Hp as [<- | [<- | [<- | [<- | [<- | []]]]]]; vm_compute; eauto. }
  split; [reflexivity|].
  apply (getRecentlyAddedProducts_newest_first Sample.host Sample.products 1). lia.
Defined.

(** C7 as it is written, for every limit, fails at the limit -1: two
    products of the sample are active and published, [slice(0, -1)] drops
    the last of them and returns the other, which is more than -1 products. *)
Lemma getRecentlyAddedProducts_negative_limit :
  ~ recentlyAddedSpec Sample.host Sample.products (-1).
Proof. intros [Hlen _]. vm_compute in Hlen. by apply Hlen. Qed.

Example getRecentlyAddedProducts_minus_one :
  Views.getRecentlyAddedProducts Sample.host Sample.products (Some (-1))
  = [Sample.dress].
Proof. reflexivity. Qed.

(** Without an argument the limit is 6. *)
Example getRecentlyAddedProducts_default :
  Views.getRecentlyAddedProducts Sample.host Sample.products None
  = [Sample.dress; Sample.scarf].
Proof. reflexivity. Qed.
(** ** The store *)

Section StoreFacts.
Import Store.

Lemma lookup_snoc {A : Type} (l : list A) (x : A) : (l ++ [x]) !! length l = Some x.
Proof. by rewrite list_lookup_middle. Qed.

Lemma insert_snoc {A : Type} (l : list A) (x y : A) :
  <[length l := y]> (l ++ [x]) = l ++ [y].
Proof. induction l as [|z l IH]; simpl; [done|]. by rewrite IH. Qed.

Ltac run_store :=
  repeat (progress (
    unfold getAllActiveProducts, getProductsByCategory, getRecentlyAddedProducts,
      getFeaturedProducts, getAllCategories, getUniqueTags, getUniqueSubCategories,
      searchProducts, getRelatedProducts, filterArray, sliceArray,
      sortArray, sortStrings, Store.isProductPublished,
      mbind, M_bind, mret, M_ret, read, write, alloc, get;
    simpl;
    rewrite ?lookup_snoc, ?insert_snoc)).

Ltac finish_store :=
  unfold ranTo, withHeap; simpl; rewrite <- ?app_assoc;
  eexists; split; [reflexivity|];
  rewrite ?app_assoc; rewrite ?lookup_snoc; try reflexivity.

Lemma runQuery_ranTo h q s :
  wf s -> ranTo s (runQuery h q s) (viewOf h q s).
Proof.
  intros [Hp Hc]. destruct q; unfold runQuery, viewOf.
  - run_store. finish_store.
  - run_store. unfold Views.getProductsByCategory.
    destruct limit as [n|]; [destruct (n =? 0)|]; run_store; finish_store.
  - run_store. finish_store.
  - run_store. finish_store.
  - run_store. rewrite (lookup_app_l (heap s ++ _)) by (rewrite length_app; lia).
    rewrite (lookup_app_l (heap s)) by done. finish_store.
  - run_store. finish_store.
  - run_store. finish_store.
  - unfold searchProducts, Views.searchProducts.
    destruct (_ || _); run_store; finish_store.
  - run_store. finish_store.
Qed.


(** The module on the store computes the views: the array a query returns
    holds what the view of the cached catalogs is. *)
Lemma resultOf_viewOf h q s : wf s -> resultOf h q s = Some (viewOf h q s).
Proof.
  intros Hwf. destruct (runQuery_ranTo h q s Hwf) as (ext & Hs & Hr).
  unfold resultOf. destruct (runQuery h q s) as [r s']. simpl in *.
  by rewrite Hs.
Qed.

(** A query leaves every array that existed before it as it was, and the
    closure variables too. *)
Lemma runQuery_frame h q s :
  wf s ->
  let s' := (runQuery h q s).2 in
  (forall l, (l < length (heap s))%nat -> heap s' !! l = heap s !! l)
  /\ productsData s' = productsData s
  /\ categoriesData s' = categoriesData s
  /\ homeData s' = homeData s
  /\ dataLoaded s' = dataLoaded s
  /\ fetched s' = fetched s
  /\ wf s'.
Proof.
  intros Hwf. destruct (runQuery_ranTo h q s Hwf) as (ext & Hs & _).
  cbv zeta. rewrite Hs. unfold wf in *. simpl. repeat split; try done.
  - intros l Hl. by apply lookup_app_l.
  - rewrite length_app. lia.
  - rewrite length_app. lia.
Qed.

Lemma runQuery_cached h q s : wf s -> cached (runQuery h q s).2 = cached s.
Proof.
  intros Hwf. destruct (runQuery_frame h q s Hwf) as (Hl & Hp & Hc & Hh & _).
  unfold cached. rewrite Hp, Hc, Hh, !Hl; [done | apply Hwf | apply Hwf].
Qed.

Lemma wf_initial : wf initial.
Proof. unfold wf, initial. simpl. lia. Qed.

Lemma loadAllData_loaded net s :
  dataLoaded s = true -> loadAllData net s = (true, s).
Proof. intros H. unfold loadAllData, mbind, M_bind, get. by rewrite H. Qed.

Ltac run_load :=
  unfold loadAllData, mbind, M_bind, mret, M_ret, get, fetchAll, alloc,
    setProductsData, setCategoriesData, setHomeData, setDataLoaded;
  simpl.

Lemma loadAllData_true net s s' :
  loadAllData net s = (true, s') -> dataLoaded s' = true.
Proof.
  run_load. destruct (dataLoaded s) eqn:Hd.
  - by intros [= <-].
  - repeat case_match; simpl; by intros [= <-].
Qed.

Lemma loadAllData_wf net s : wf s -> wf (loadAllData net s).2.
Proof.
  intros [Hp Hc]. run_load. destruct (dataLoaded s); [done|].
  unfold wf. repeat case_match; simpl; rewrite ?length_app; simpl; lia.
Qed.

Lemma runOp_wf o s : wf s -> wf (runOp o s).
Proof.
  intros Hwf. destruct o as [net | h q]; simpl.
  - by apply loadAllData_wf.
  - by apply runQuery_frame.
Qed.

Lemma runOps_wf ops s : wf s -> wf (runOps ops s).
Proof.
  revert s. induction ops as [|o ops IH]; intros s Hwf; simpl; [done|].
  by apply IH, runOp_wf.
Qed.

(** Once the data is loaded, no operation fetches or changes the cache. *)
Lemma runOps_loaded ops s :
  wf s -> dataLoaded s = true ->
  let s' := runOps ops s in
  dataLoaded s' = true /\ fetched s' = fetched s /\ cached s' = cached s.
Proof.
  revert s. induction ops as [|o ops IH]; intros s Hwf Hd; simpl; [done|].
  assert (Hstep : wf (runOp o s) /\ dataLoaded (runOp o s) = true /\
                  fetched (runOp o s) = fetched s /\
                  cached (runOp o s) = cached s).
  { destruct o as [net | h q]; simpl.
    - by rewrite (loadAllData_loaded net s Hd).
    - destruct (runQuery_frame h q s Hwf) as (_ & _ & _ & _ & Hd' & Hf & Hwf').
      repeat split; [apply Hwf' | apply Hwf' | congruence | done |].
      by apply runQuery_cached. }
  destruct Hstep as (Hwf' & Hd' & Hf' & Hc').
  destruct (IH _ Hwf' Hd') as (? & ? & ?). simpl in *.
  repeat split; congruence.
Qed.

End StoreFacts.

Lemma viewOf_frame h q s s' :
  Store.wf s -> argsIn q s ->
  (forall l, (l < length (Store.heap s))%nat ->
             Store.heap s' !! l = Store.heap s !! l) ->
  Store.productsData s' = Store.productsData s ->
  Store.categoriesData s' = Store.categoriesData s ->
  Store.viewOf h q s' = Store.viewOf h q s.
Proof.
  intros [Hp Hc] Hargs Hl Hps Hcs. unfold Store.viewOf, Store.loc in *. cbv zeta.
  rewrite Hps, Hcs, (Hl _ Hp), (Hl _ Hc).
  destruct q; simpl in Hargs; try done; by rewrite (Hl _ Hargs).
Qed.

(** C8. Every query operation leaves the cached [productsData],
    [categoriesData] and [homeData] unchanged, so a call of one of them
    does not change what any later call returns. The host conditions of
    each call (clock, time zone, random draws) are inputs of that call. *)
Theorem queries_leave_cache_unchanged
    (h1 h2 : Host) (q1 q2 : Store.Query) (s : Store.State) :
  Store.wf s -> argsIn q2 s ->
  let s' := (Store.runQuery h1 q1 s).2 in
  Store.cached s' = Store.cached s
  /\ Store.productsData s' = Store.productsData s
  /\ Store.categoriesData s' = Store.categoriesData s
  /\ Store.homeData s' = Store.homeData s
  /\ Store.dataLoaded s' = Store.dataLoaded s
  /\ Store.resultOf h2 q2 s' = Store.resultOf h2 q2 s.
Proof.
  intros Hwf Hargs.
  destruct (runQuery_frame h1 q1 s Hwf) as (Hl & Hp & Hc & Hh & Hd & _ & Hwf').
  cbv zeta. repeat split; try done.
  - by apply runQuery_cached.
  - rewrite !resultOf_viewOf by done. f_equal. by apply viewOf_frame.
Qed.

Lemma queries_leave_cache_unchanged_witness :
  let q1 := Store.QRecentlyAddedProducts (Some 2) in
  let q2 := Store.QUniqueTags (Store.productsData Sample.loaded) in
  let s' := (Store.runQuery Sample.host q1 Sample.loaded).2 in
  Store.wf Sample.loaded
  /\ argsIn q2 Sample.loaded
  /\ Store.cached s' = Store.cached Sample.loaded
  /\ Store.resultOf Sample.host q2 s' = Store.resultOf Sample.host q2 Sample.loaded
  /\ Store.resultOf Sample.host q1 s' = Store.resultOf Sample.host q1 Sample.loaded.
Proof.
  cbv zeta.
  assert (Hwf : Store.wf Sample.loaded) by (split; vm_compute; lia).
  assert (Hargs : argsIn (Store.QUniqueTags (Store.productsData Sample.loaded))
                    Sample.loaded) by (vm_compute; lia).
  split; [exact Hwf|]. split; [exact Hargs|].
  pose proof (queries_leave_cache_unchanged Sample.host Sample.host
                (Store.QRecentlyAddedProducts (Some 2))
                (Store.QUniqueTags (Store.productsData Sample.loaded))
                Sample.loaded Hwf Hargs) as (Hc & _ & _ & _ & _ & Hr).
  split; [exact Hc|]. split; [exact Hr|]. reflexivity.
Defined.

(** C3. After a call of [loadAllData] has returned true, every later call
    returns true without fetching and leaves the cached products,
    categories and home data as they were, whatever the module did before
    and whatever it is asked in between. *)
Theorem loadAllData_loads_once
    (before between : list Store.Op) (net0 net : Store.Network) (s1 : Store.State) :
  Store.loadAllData net0 (Store.runOps before Store.initial) = (true, s1) ->
  let s2 := Store.runOps between s1 in
  Store.loadAllData net s2 = (true, s2)
  /\ Store.fetched s2 = Store.fetched s1
  /\ Store.cached s2 = Store.cached s1.
Proof.
  intros Hload.
  assert (Hwf : Store.wf s1).
  { replace s1 with (Store.loadAllData net0 (Store.runOps before Store.initial)).2
      by (by rewrite Hload).
    apply loadAllData_wf, runOps_wf, wf_initial. }
  apply loadAllData_true in Hload.
  destruct (runOps_loaded between s1 Hwf Hload) as (Hd & Hf & Hc).
  cbv zeta. split; [|done]. by apply loadAllData_loaded.
Qed.

Lemma loadAllData_loads_once_witness :
  let before := [Store.OpLoad Sample.offline] in
  let between :=
    [Store.OpQuery Sample.host (Store.QRecentlyAddedProducts None);
     Store.OpLoad Sample.offline;
     Store.OpQuery Sample.host (Store.QRelatedProducts "p1" "accessories" None)] in
  let s1 := (Store.loadAllData Sample.online (Store.runOps before Store.initial)).2 in
  let s2 := Store.runOps between s1 in
  Store.loadAllData Sample.online (Store.runOps before Store.initial) = (true, s1)
  /\ Store.loadAllData Sample.offline s2 = (true, s2)
  /\ Store.fetched s2 = Store.fetched s1
  /\ Store.cached s2 = Store.cached s1.
Proof.
  cbv zeta. split; [reflexivity|].
  apply (loadAllData_loads_once
           [Store.OpLoad Sample.offline]
           [Store.OpQuery Sample.host (Store.QRecentlyAddedProducts None);
            Store.OpLoad Sample.offline;
            Store.OpQuery Sample.host (Store.QRelatedProducts "p1" "accessories" None)]
           Sample.online Sample.offline).
  reflexivity.
Defined.

(** A load that fails leaves the module unloaded, and the next call
    fetches again. *)
Example loadAllData_retry :
  let s0 := (Store.loadAllData Sample.offline Store.initial).2 in
  (Store.loadAllData Sample.offline Store.initial).1 = false
  /\ Store.dataLoaded s0 = false
  /\ length (Store.fetched s0) = 3%nat
  /\ length (Store.fetched (Store.loadAllData Sample.online s0).2) = 6%nat.
Proof. by repeat split. Qed.

(** * Further properties of the module *)

(** ** Categories and their products *)

Lemma getCategoryConfig_None categoriesData i :
  Views.getCategoryConfig categoriesData i = None <->
  forall c, c ∈ categoriesData -> cat_id c <> i.
Proof.
  unfold Views.getCategoryConfig.
  rewrite find_None, Forall_forall. split; intros H c Hc.
  - specialize (H c Hc). by apply bool_decide_eq_false in H.
  - apply bool_decide_eq_false. by apply H.
Qed.

Lemma getCategoryConfig_Some categoriesData i c :
  Views.getCategoryConfig categoriesData i = Some c <->
  exists pre post,
    categoriesData = pre ++ c :: post /\ cat_id c = i /\
    Forall (fun q => cat_id q <> i) pre.
Proof.
  unfold Views.getCategoryConfig. rewrite find_Some.
  split; intros (pre & post & E & Hc & Hpre); exists pre, post; (split; [done|]).
  - apply bool_decide_eq_true in Hc. split; [done|].
    eapply Forall_impl; [exact Hpre|]. intros q. apply bool_decide_eq_false.
  - split; [by apply bool_decide_eq_true|].
    eapply Forall_impl; [exact Hpre|]. intros q. apply bool_decide_eq_false.
Qed.

(** X1. [getCategoryConfig] returns the first entry of the category
    catalog with the given id, and null exactly when no entry has it. *)
Theorem getCategoryConfig_lookup (categoriesData : list Category) (i : string) :
  (Views.getCategoryConfig categoriesData i = None <->
   forall c, c ∈ categoriesData -> cat_id c <> i)
  /\ (forall c, Views.getCategoryConfig categoriesData i = Some c <->
        exists pre post,
          categoriesData = pre ++ c :: post /\ cat_id c = i /\
          Forall (fun q => cat_id q <> i) pre).
Proof.
  split; [apply getCategoryConfig_None | intros c; apply getCategoryConfig_Some].
Qed.

Lemma getProductsByCategory_positive h productsData c n :
  0 < n ->
  Views.getProductsByCategory h productsData c (Some n)
  = firstn (Z.to_nat n) (Views.getProductsByCategory h productsData c None).
Proof.
  intros Hn. unfold Views.getProductsByCategory.
  destruct (n =? 0) eqn:E; [apply Z.eqb_eq in E; lia|]. simpl.
  apply slice0_nonneg. lia.
Qed.

Lemma getProductsByCategory_all_elem h productsData c p :
  p ∈ Views.getProductsByCategory h productsData c None <->
  p ∈ Views.getAllActiveProducts h productsData /\ category p = c.
Proof.
  unfold Views.getProductsByCategory.
  by rewrite !list_elem_of_In, filter_In, bool_decide_eq_true.
Qed.

Lemma getAllCategories_elem h productsData categoriesData cat :
  cat ∈ Views.getAllCategories h productsData categoriesData <->
  cat ∈ categoriesData /\
  exists p, p ∈ Views.getAllActiveProducts h productsData /\
            category p = cat_id cat.
Proof.
  unfold Views.getAllCategories.
  rewrite list_elem_of_In, filter_In, bool_decide_eq_true, elem_of_list_to_set,
    <- list_elem_of_In, list_elem_of_fmap.
  split; intros (Hc & p & H1 & H2); (split; [done|]); by exists p.
Qed.

(** X2. A category of the catalog is returned by [getAllCategories] exactly
    when [getProductsByCategory] has products for its id; for a category
    that is returned, [getCategoryConfig] finds an entry with its id, and a
    positive limit [n] gives between one and [n] products. *)
Theorem listed_category_has_products
    (h : Host) (productsData : list Product) (categoriesData : list Category)
    (cat : Category) :
  cat ∈ categoriesData ->
  (cat ∈ Views.getAllCategories h productsData categoriesData <->
   Views.getProductsByCategory h productsData (cat_id cat) None <> [])
  /\ (cat ∈ Views.getAllCategories h productsData categoriesData ->
      (exists c, Views.getCategoryConfig categoriesData (cat_id cat) = Some c /\
                 cat_id c = cat_id cat)
      /\ forall n, 0 < n ->
           let products :=
             Views.getProductsByCategory h productsData (cat_id cat) (Some n) in
           products <> [] /\ Z.of_nat (length products) <= n).
Proof.
  intros Hcat.
  assert (Hiff : cat ∈ Views.getAllCategories h productsData categoriesData <->
                 Views.getProductsByCategory h productsData (cat_id cat) None <> []).
  { rewrite getAllCategories_elem. split.
    - intros (_ & p & Hp & Hc) E.
      assert (p ∈ Views.getProductsByCategory h productsData (cat_id cat) None)
        as Hin by by apply getProductsByCategory_all_elem.
      rewrite E in Hin. by apply elem_of_nil in Hin.
    - intros Hne. split; [done|].
      destruct (Views.getProductsByCategory h productsData (cat_id cat) None)
        as [|p l] eqn:E; [done|].
      exists p. apply getProductsByCategory_all_elem. rewrite E. by left. }
  split; [exact Hiff|]. intros Hin. split.
  - destruct (Views.getCategoryConfig categoriesData (cat_id cat)) as [c|] eqn:E.
    + exists c. split; [done|].
      apply getCategoryConfig_Some in E. by destruct E as (? & ? & _ & ? & _).
    + exfalso. unfold Views.getCategoryConfig in E.
      apply find_None in E.
      eapply (proj1 (Forall_forall _ _)) in E; [|exact Hcat].
      by apply bool_decide_eq_false in E.
  - intros n Hn. cbv zeta.
    rewrite (getProductsByCategory_positive h productsData (cat_id cat) n Hn).
    apply Hiff in Hin.
    destruct (Views.getProductsByCategory h productsData (cat_id cat) None)
      as [|p l]; [done|].
    split.
    + destruct (Z.to_nat n) eqn:En; [lia|]. done.
    + rewrite length_firstn. lia.
Qed.

Lemma listed_category_has_products_witness :
  let dresses := {| cat_id := "dresses"; cat_label := "Dresses" |} in
  dresses ∈ Sample.categories
  /\ dresses ∈ Views.getAllCategories Sample.host Sample.products Sample.categories
  /\ Views.getProductsByCategory Sample.host Sample.products "dresses" (Some 3)
     = [Sample.dress].
Proof.
  cbv zeta.
  assert (Hin : {| cat_id := "dresses"; cat_label := "Dresses" |} ∈ Sample.categories)
    by (apply list_elem_of_In; vm_compute; left; reflexivity).
  split; [exact Hin|].
  pose proof (listed_category_has_products Sample.host Sample.products
                Sample.categories _ Hin) as [Hiff _].
  split; [|reflexivity].
  apply Hiff. vm_compute. discriminate.
Defined.

(** ** Lookup and listing agree *)

Lemma find_unique_id productsData p :
  NoDup (map id productsData) -> p ∈ productsData ->
  JsArray.find (fun q => bool_decide (id q = id p)) productsData = Some p.
Proof.
  induction productsData as [|q l IH]; intros Hnd Hp; simpl.
  - by apply elem_of_nil in Hp.
  - apply NoDup_cons in Hnd as [Hq Hnd].
    apply elem_of_cons in Hp as [-> | Hp].
    + by rewrite bool_decide_eq_true_2.
    + rewrite bool_decide_eq_false_2; [by apply IH|].
      intros E. apply Hq. rewrite E. by apply list_elem_of_fmap_2.
Qed.

(** X3. When the ids of the catalog are unique, every product that
    [getAllActiveProducts] lists is the one [getProductById] returns for its
    id. *)
Theorem getProductById_of_listed (h : Host) (productsData : list Product) (p : Product) :
  NoDup (map id productsData) ->
  p ∈ Views.getAllActiveProducts h productsData ->
  Views.getProductById h productsData (id p) = Some p.
Proof.
  intros Hnd Hp. apply getAllActiveProducts_elem in Hp as (Hin & Ha & Hpub).
  unfold Views.getProductById. rewrite (find_unique_id _ _ Hnd Hin).
  rewrite Hpub. apply Z.eqb_eq in Ha. by rewrite Ha.
Qed.

Lemma getProductById_of_listed_witness :
  NoDup (map id Sample.products)
  /\ Sample.dress ∈ Views.getAllActiveProducts Sample.host Sample.products
  /\ Views.getProductById Sample.host Sample.products "p2" = Some Sample.dress.
Proof.
  assert (Hnd : NoDup (map id Sample.products)).
  { apply (bool_decide_unpack _). vm_compute. exact I. }
  assert (Hin : Sample.dress ∈ Views.getAllActiveProducts Sample.host Sample.products).
  { apply list_elem_of_In. vm_compute. right. left. reflexivity. }
  split; [exact Hnd|]. split; [exact Hin|].
  apply (getProductById_of_listed Sample.host Sample.products Sample.dress Hnd Hin).
Defined.

(** With a repeated id the first entry shadows the others: an inactive
    first entry hides an active one from the lookup, not from the list. *)
Example getProductById_shadowed :
  let hidden := {| id := "p2"; name := "Old Dress"; description := "";
                   category := "dresses"; sub_category := None; tags := None;
                   active := 0; featured := 0; publish_at := None;
                   added_date := "2024-12-01" |} in
  Views.getProductById Sample.host [hidden; Sample.dress] "p2" = None
  /\ Views.getAllActiveProducts Sample.host [hidden; Sample.dress] = [Sample.dress].
Proof. by split. Qed.

(** ** Search *)

Lemma allWhiteSpace_toLowerCase s :
  JsString.allWhiteSpace (JsString.toLowerCase s) = JsString.allWhiteSpace s.
Proof.
  induction s as [|c s IH]; simpl; [done|].
  by rewrite isWhiteSpace_lowerChar, IH.
Qed.

(** The search as a function of the normalised term. *)
Lemma searchProducts_term h productsData query :
  Views.searchProducts h productsData query =
  let term := JsString.trim (JsString.toLowerCase query) in
  if bool_decide (term = EmptyString) then []
  else List.filter (Views.matchesSearch term)
                   (Views.getAllActiveProducts h productsData).
Proof.
  cbv zeta. unfold Views.searchProducts.
  destruct (JsString.allWhiteSpace query) eqn:Hws.
  - rewrite (bool_decide_eq_true_2 (JsString.trim query = _))
      by by apply trim_empty.
    rewrite orb_true_r.
    rewrite bool_decide_eq_true_2; [done|].
    apply trim_empty. by rewrite allWhiteSpace_toLowerCase.
  - assert (JsString.truthy query = true) as ->.
    { unfold JsString.truthy. apply negb_true_iff, bool_decide_eq_false.
      intros ->. done. }
    rewrite (bool_decide_eq_false_2 (JsString.trim query = _)).
    2:{ intros E. apply trim_empty in E. congruence. }
    rewrite bool_decide_eq_false_2; [done|].
    intros E. apply trim_empty in E. rewrite allWhiteSpace_toLowerCase in E.
    congruence.
Qed.

(** X4. The search depends on the query only through its lower-cased,
    trimmed form: two queries that differ in letter case or in surrounding
    white space return the same products, and every product returned is one
    that [getAllActiveProducts] lists. *)
Theorem searchProducts_normalised
    (h : Host) (productsData : list Product) (q1 q2 : string) :
  JsString.trim (JsString.toLowerCase q1) = JsString.trim (JsString.toLowerCase q2) ->
  Views.searchProducts h productsData q1 = Views.searchProducts h productsData q2
  /\ sublist (Views.searchProducts h productsData q1)
             (Views.getAllActiveProducts h productsData).
Proof.
  intros E. rewrite !searchProducts_term. cbv zeta. rewrite E. split; [done|].
  case_bool_decide; [apply sublist_nil_l | apply filter_sublist].
Qed.

Lemma searchProducts_normalised_witness :
  JsString.trim (JsString.toLowerCase "  LiNeN ")
  = JsString.trim (JsString.toLowerCase "linen")
  /\ Views.searchProducts Sample.host Sample.products "  LiNeN "
     = Views.searchProducts Sample.host Sample.products "linen"
  /\ Views.searchProducts Sample.host Sample.products "linen" = [Sample.dress].
Proof.
  split; [reflexivity|]. split; [|reflexivity].
  apply (searchProducts_normalised Sample.host Sample.products "  LiNeN " "linen").
  reflexivity.
Defined.

(** ** Related products *)

Lemma firstn_short {A : Type} (l : list A) k :
  (length (firstn k l) < k)%nat -> firstn k l = l.
Proof. rewrite length_firstn. intros H. apply firstn_all2. lia. Qed.

(** X5. When the shuffle only reorders, [getRelatedProducts] returns at
    most [limit] products (4 by default), each of them active, published,
    of the given category and different from the product given; when it
    returns fewer than [limit], no such product is left out. *)
Theorem getRelatedProducts_related
    (h : Host) (productsData : list Product) (productId c : string)
    (limit : option Z) :
  (forall l, randomOrder h l ≡ₚ l) ->
  0 <= default 4 limit ->
  let result := Views.getRelatedProducts h productsData productId c limit in
  let related p :=
    p ∈ Views.getAllActiveProducts h productsData /\ category p = c /\
    id p <> productId in
  Z.of_nat (length result) <= default 4 limit
  /\ (forall p, p ∈ result -> related p)
  /\ (Z.of_nat (length result) < default 4 limit ->
      forall p, related p -> p ∈ result).
Proof.
  intros Hperm Hlim. cbv zeta. unfold Views.getRelatedProducts.
  set (cands := List.filter (fun p => negb (bool_decide (id p = productId)))
                  (Views.getProductsByCategory h productsData c None)).
  assert (Hcand : forall p, p ∈ cands <->
            p ∈ Views.getAllActiveProducts h productsData /\ category p = c /\
            id p <> productId).
  { intros p. unfold cands.
    rewrite list_elem_of_In, filter_In, <- list_elem_of_In,
      getProductsByCategory_all_elem, negb_true_iff, bool_decide_eq_false.
    tauto. }
  rewrite slice0_nonneg by done.
  split; [rewrite length_firstn; lia|]. split.
  - intros p Hp. apply Hcand. rewrite <- (Hperm cands).
    eapply subseteq_take, Hp.
  - intros Hlt p Hp. rewrite firstn_short by lia.
    rewrite (Hperm cands). by apply Hcand.
Qed.

Lemma getRelatedProducts_related_witness :
  (forall l, randomOrder Sample.host l ≡ₚ l)
  /\ 0 <= default 4 (Some 2)
  /\ Views.getRelatedProducts Sample.host
       (Sample.dress :: Sample.products) "p1" "dresses" (Some 2)
     = [Sample.dress; Sample.dress]
  /\ forall p,
       p ∈ Views.getRelatedProducts Sample.host
             (Sample.dress :: Sample.products) "p1" "dresses" (Some 2) ->
       id p <> "p1"%string.
Proof.
  assert (Hperm : forall l, randomOrder Sample.host l ≡ₚ l) by (intros l; reflexivity).
  assert (Hlim : 0 <= default 4 (Some 2)) by (simpl; lia).
  split; [exact Hperm|]. split; [exact Hlim|]. split; [reflexivity|].
  intros p Hp.
  apply (getRelatedProducts_related Sample.host (Sample.dress :: Sample.products)
           "p1" "dresses" (Some 2) Hperm Hlim) in Hp.
  apply Hp.
Defined.

(** ** The clock and the time zone *)

(** X6. For a [publish_at] that the browser reads as local time (its time
    value is its wall-clock reading plus the zone offset), the product is
    shown exactly when the wall clock of Indian Standard Time has reached
    that reading: the outcome does not depend on the time zone of the
    browser. *)
Theorem isProductPublished_local_time
    (h : Host) (product : Product) (s : string) (wall : Z) :
  publish_at product = Some s ->
  JsString.truthy s = true ->
  dateParse h s = Some (wall + timezoneOffset h * 60000) ->
  Z.abs (now h + timezoneOffset h * 60000 + 19800000) <= 8640000000000000 ->
  Views.isProductPublished h product = (wall <=? now h + 19800000).
Proof.
  intros Hp Hs Hparse Hclip.
  assert (s <> EmptyString) as Hne by (by intros ->).
  rewrite (isProductPublished_scheduled h _ _ Hp Hne), Hparse.
  unfold Views.getCurrentIST, timeClip.
  apply Z.leb_le in Hclip. rewrite Hclip. simpl.
  destruct (wall <=? now h + 19800000) eqn:E.
  - apply Z.leb_le in E. apply Z.leb_le. lia.
  - apply Z.leb_gt in E. apply Z.leb_gt. lia.
Qed.

Lemma isProductPublished_local_time_witness :
  let t := 1736930000000 in
  let wall := 1736935200000 in
  let india := IsoHost.at_ t (-330) in
  let newYork := IsoHost.at_ t 300 in
  dateParse india "2025-01-15T10:00:00" = Some (wall + timezoneOffset india * 60000)
  /\ dateParse newYork "2025-01-15T10:00:00"
     = Some (wall + timezoneOffset newYork * 60000)
  /\ Views.isProductPublished india Sample.dress = true
  /\ Views.isProductPublished newYork Sample.dress = true.
Proof.
  cbv zeta. split; [reflexivity|]. split; [reflexivity|]. split.
  - rewrite (isProductPublished_local_time (IsoHost.at_ 1736930000000 (-330))
               Sample.dress "2025-01-15T10:00:00" 1736935200000);
      [reflexivity | reflexivity | reflexivity | reflexivity | vm_compute; discriminate].
  - rewrite (isProductPublished_local_time (IsoHost.at_ 1736930000000 300)
               Sample.dress "2025-01-15T10:00:00" 1736935200000);
      [reflexivity | reflexivity | reflexivity | reflexivity | vm_compute; discriminate].
Defined.

(** A [publish_at] with an explicit zone is an instant, and then the zone
    of the browser shifts the outcome: at 2025-02-01T00:00Z a product due at
    03:00Z is still hidden in a browser set to Indian time and already shown
    in one set to UTC. *)
Example isProductPublished_absolute_time :
  let product := {| id := "p6"; name := "Shawl"; description := "";
                    category := "accessories"; sub_category := None;
                    tags := None; active := 1; featured := 0;
                    publish_at := Some "2025-02-01T03:00:00Z";
                    added_date := "2025-01-30" |} in
  Views.isProductPublished (IsoHost.at_ 1738368000000 (-330)) product = false
  /\ Views.isProductPublished (IsoHost.at_ 1738368000000 0) product = true.
Proof. by split. Qed.

(** ** Loading *)

Section LoadFacts.
Import Store.

Ltac run_load_in s Hd :=
  unfold loadAllData, mbind, M_bind, mret, M_ret, get, fetchAll, alloc,
    setProductsData, setCategoriesData, setHomeData, setDataLoaded;
  rewrite Hd; simpl.

Lemma loadAllData_fetches net s :
  dataLoaded s = false ->
  fetched (loadAllData net s).2 = fetched s ++ catalogUrls.
Proof.
  intros Hd. run_load_in s Hd.
  destruct (productsRes net) as [[[] [ps|]]|];
    destruct (categoriesRes net) as [[[] [cs|]]|];
    destruct (homeRes net) as [[[] [hd|]]|]; reflexivity.
Qed.

Lemma loadAllData_served net s ps cs hd :
  dataLoaded s = false -> served net ps cs hd ->
  (loadAllData net s).1 = true
  /\ dataLoaded (loadAllData net s).2 = true
  /\ cached (loadAllData net s).2
     = (Some (ArrProducts ps), Some (ArrCategories cs), Some hd).
Proof.
  intros Hd (Hp & Hc & Hh). run_load_in s Hd. rewrite Hp, Hc, Hh. simpl.
  split; [done|]. split; [done|]. unfold cached. simpl.
  replace ((heap s ++ [ArrProducts ps]) ++ [ArrCategories cs])
    with (heap s ++ ArrProducts ps :: [ArrCategories cs])
    by (by rewrite <- app_assoc).
  rewrite list_lookup_middle by done.
  replace (heap s ++ ArrProducts ps :: [ArrCategories cs])
    with ((heap s ++ [ArrProducts ps]) ++ [ArrCategories cs])
    by (by rewrite <- app_assoc).
  by rewrite lookup_snoc.
Qed.

Lemma loadAllData_true_served net s :
  dataLoaded s = false -> (loadAllData net s).1 = true ->
  exists ps cs hd, served net ps cs hd.
Proof.
  intros Hd. run_load_in s Hd. unfold served.
  destruct (productsRes net) as [[okp jp]|]; [|done].
  destruct (categoriesRes net) as [[okc jc]|]; [|done].
  destruct (homeRes net) as [[okh jh]|]; [|done]. simpl.
  destruct okp; [|done]. destruct okc; [|done]. destruct okh; [|done]. simpl.
  destruct jp as [ps|]; [|done]. simpl.
  destruct jc as [cs|]; [|done]. simpl.
  destruct jh as [hd|]; [|done]. intros _.
  by exists ps, cs, hd.
Qed.

Lemma loadAllData_false net s :
  dataLoaded s = false -> (loadAllData net s).1 = false ->
  dataLoaded (loadAllData net s).2 = false
  /\ homeData (loadAllData net s).2 = homeData s.
Proof.
  intros Hd. run_load_in s Hd.
  destruct (productsRes net) as [[[] [ps|]]|];
    destruct (categoriesRes net) as [[[] [cs|]]|];
    destruct (homeRes net) as [[[] [hd|]]|]; simpl; intros H;
    first [discriminate H | by split].
Qed.

Lemma loadAllData_products_replaced net s pr cr hr ps :
  dataLoaded s = false ->
  productsRes net = Some pr -> categoriesRes net = Some cr ->
  homeRes net = Some hr ->
  ok pr = true -> ok cr = true -> ok hr = true ->
  json pr = Some ps ->
  heap (loadAllData net s).2 !! productsData (loadAllData net s).2
  = Some (ArrProducts ps).
Proof.
  intros Hd Hp Hc Hh Hop Hoc Hoh Hj. run_load_in s Hd.
  rewrite Hp, Hc, Hh, Hop, Hoc, Hoh, Hj. simpl.
  destruct (json cr) as [cs|]; simpl; [|apply lookup_snoc].
  destruct (json hr) as [hd|]; simpl.
  all: replace ((heap s ++ [ArrProducts ps]) ++ [ArrCategories cs])
         with (heap s ++ ArrProducts ps :: [ArrCategories cs])
         by (by rewrite <- app_assoc).
  all: by rewrite list_lookup_middle.
Qed.


End LoadFacts.

(** X7. A call of [loadAllData] on a module that is not loaded fetches the
    three catalog URLs, and returns true exactly when the three files are
    served and parse; the cache then holds the data fetched and the module
    is loaded. *)
Theorem loadAllData_first_load
    (net : Store.Network) (s : Store.State) :
  Store.dataLoaded s = false ->
  let res := Store.loadAllData net s in
  Store.fetched res.2 = Store.fetched s ++ catalogUrls
  /\ (res.1 = true <-> exists ps cs hd, served net ps cs hd)
  /\ (forall ps cs hd, served net ps cs hd ->
        Store.dataLoaded res.2 = true
        /\ Store.cached res.2
           = (Some (Store.ArrProducts ps), Some (Store.ArrCategories cs), Some hd)).
Proof.
  intros Hd. cbv zeta. split; [by apply loadAllData_fetches|]. split.
  - split; [by apply loadAllData_true_served|].
    intros (ps & cs & hd & Hs). by apply (loadAllData_served net s ps cs hd).
  - intros ps cs hd Hs. by apply (loadAllData_served net s ps cs hd).
Qed.

Lemma loadAllData_first_load_witness :
  Store.dataLoaded Store.initial = false
  /\ served Sample.online Sample.products Sample.categories Sample.home
  /\ Store.cached Sample.loaded
     = (Some (Store.ArrProducts Sample.products),
        Some (Store.ArrCategories Sample.categories), Some Sample.home)
  /\ Store.fetched Sample.loaded = catalogUrls.
Proof.
  assert (Hs : served Sample.online Sample.products Sample.categories Sample.home)
    by (by repeat split).
  split; [reflexivity|]. split; [exact Hs|].
  destruct (loadAllData_first_load Sample.online Store.initial eq_refl)
    as (Hf & _ & Hc).
  split; [apply (Hc _ _ _ Hs) | exact Hf].
Defined.

(** X8. A call of [loadAllData] that returns false leaves the module
    unloaded and the home data as it was, but not always the cache: when the
    three responses are ok and the products file parses, the cached products
    are already replaced by the time a later file fails to parse. *)
Theorem loadAllData_failure
    (net : Store.Network) (s : Store.State) :
  Store.dataLoaded s = false ->
  (Store.loadAllData net s).1 = false ->
  let s' := (Store.loadAllData net s).2 in
  Store.dataLoaded s' = false
  /\ Store.homeData s' = Store.homeData s
  /\ (forall pr cr hr ps,
        Store.productsRes net = Some pr -> Store.categoriesRes net = Some cr ->
        Store.homeRes net = Some hr ->
        Store.ok pr = true -> Store.ok cr = true -> Store.ok hr = true ->
        Store.json pr = Some ps ->
        Store.heap s' !! Store.productsData s' = Some (Store.ArrProducts ps)).
Proof.
  intros Hd Hr. cbv zeta.
  destruct (loadAllData_false net s Hd Hr) as [Hd' Hh].
  split; [done|]. split; [done|].
  intros pr cr hr ps. by apply loadAllData_products_replaced.
Qed.

Lemma loadAllData_failure_witness :
  let net :=
    {| Store.productsRes :=
         Some {| Store.ok := true; Store.json := Some Sample.products |};
       Store.categoriesRes := Some {| Store.ok := true; Store.json := None |};
       Store.homeRes := Some {| Store.ok := true; Store.json := Some Sample.home |}
    |} in
  let s' := (Store.loadAllData net Store.initial).2 in
  Store.dataLoaded Store.initial = false
  /\ (Store.loadAllData net Store.initial).1 = false
  /\ Store.dataLoaded s' = false
  /\ Store.heap s' !! Store.productsData s' = Some (Store.ArrProducts Sample.products)
  /\ Store.resultOf Sample.host Store.QAllActiveProducts s'
     = Some (Store.ArrProducts [Sample.scarf; Sample.dress]).
Proof.
  cbv zeta. split; [reflexivity|]. split; [reflexivity|].
  pose proof (loadAllData_failure
                {| Store.productsRes :=
                     Some {| Store.ok := true; Store.json := Some Sample.products |};
                   Store.categoriesRes :=
                     Some {| Store.ok := true; Store.json := None |};
                   Store.homeRes :=
                     Some {| Store.ok := true; Store.json := Some Sample.home |} |}
                Store.initial eq_refl eq_refl) as (Hd & _ & Hp).
  split; [exact Hd|]. split; [|reflexivity].
  by eapply Hp.
Defined.


(** ** Filtering by tags and sub-categories *)

Lemma length_eqb_0 {A : Type} (l : list A) : (length l =? 0)%nat = true <-> l = [].
Proof. destruct l; simpl; split; done. Qed.

Lemma matchesFilters_spec selectedTags selectedSubCats p :
  CaspianData.matchesFilters selectedTags selectedSubCats p = true <->
  passesFilters selectedTags selectedSubCats p.
Proof.
  unfold CaspianData.matchesFilters, passesFilters. cbv zeta.
  rewrite andb_true_iff.
  assert (Htags :
    (if negb (length selectedTags =? 0)%nat
     then forallb (fun tag => match tags p with
                              | Some ts => bool_decide (tag ∈ ts)
                              | None => false
                              end) selectedTags
     else true) = true <->
    forall tag, tag ∈ selectedTags -> exists ts, tags p = Some ts /\ tag ∈ ts).
  { destruct selectedTags as [|t0 l]; simpl (negb _).
    - split; [|done]. intros _ tag Hin. by apply elem_of_nil in Hin.
    - cbv iota. rewrite forallb_forall. split.
      + intros H tag Hin. apply list_elem_of_In, H in Hin.
        destruct (tags p) as [ts|]; [|done].
        apply bool_decide_eq_true in Hin. eauto.
      + intros H tag Hin. apply list_elem_of_In, H in Hin as (ts & -> & Hin).
        by apply bool_decide_eq_true. }
  assert (Hsub :
    (if negb (length selectedSubCats =? 0)%nat
     then match sub_category p with
          | Some sc => bool_decide (sc ∈ selectedSubCats)
          | None => false
          end
     else true) = true <->
    (selectedSubCats <> [] ->
     exists sc, sub_category p = Some sc /\ sc ∈ selectedSubCats)).
  { destruct selectedSubCats as [|s0 l]; simpl (negb _).
    - split; [done|]. done.
    - cbv iota. destruct (sub_category p) as [sc|].
      + rewrite bool_decide_eq_true. split; [eauto|].
        intros H. destruct H as (? & [= <-] & ?); done.
      + split; [done|]. intros H. destruct H as (? & ? & _); done. }
  by rewrite Htags, Hsub.
Qed.

Lemma filterProducts_filter products selectedTags selectedSubCats :
  CaspianData.filterProducts products selectedTags selectedSubCats
  = List.filter (CaspianData.matchesFilters selectedTags selectedSubCats) products.
Proof.
  unfold CaspianData.filterProducts.
  destruct selectedTags, selectedSubCats; simpl; try done.
  induction products as [|p l IH]; simpl; [done|]. by rewrite <- IH.
Qed.

(** X10. [filterProducts] returns exactly the products that carry every
    selected tag and, when sub-categories are selected, have one of them, in
    the order given; with nothing selected it returns the products as they
    are. *)
Theorem filterProducts_exactly
    (products : list Product) (selectedTags selectedSubCats : list string) :
  exactlyThose (passesFilters selectedTags selectedSubCats) products
    (CaspianData.filterProducts products selectedTags selectedSubCats)
  /\ CaspianData.filterProducts products [] [] = products.
Proof.
  split; [|done]. rewrite filterProducts_filter.
  apply filter_exactlyThose. intros p. apply matchesFilters_spec.
Qed.

Lemma matchesFilters_split selectedTags selectedSubCats p :
  CaspianData.matchesFilters selectedTags selectedSubCats p
  = CaspianData.matchesFilters selectedTags [] p
    && CaspianData.matchesFilters [] selectedSubCats p.
Proof.
  unfold CaspianData.matchesFilters. cbv zeta. simpl.
  by rewrite andb_true_r.
Qed.

(** X11. Filtering by the tags and then by the sub-categories, or the
    other way round, gives what filtering by both at once gives; filtering
    twice by the same selection changes nothing. *)
Theorem filterProducts_compose
    (products : list Product) (selectedTags selectedSubCats : list string) :
  let both := CaspianData.filterProducts products selectedTags selectedSubCats in
  CaspianData.filterProducts
    (CaspianData.filterProducts products selectedTags []) [] selectedSubCats = both
  /\ CaspianData.filterProducts
       (CaspianData.filterProducts products [] selectedSubCats) selectedTags [] = both
  /\ CaspianData.filterProducts both selectedTags selectedSubCats = both.
Proof.
  cbv zeta. rewrite !filterProducts_filter, !filter_filter.
  repeat split; apply filter_ext; intros p.
  - by rewrite (matchesFilters_split selectedTags selectedSubCats).
  - rewrite (matchesFilters_split selectedTags selectedSubCats). apply andb_comm.
  - by destruct (CaspianData.matchesFilters selectedTags selectedSubCats p).
Qed.

(** X12. On the store, [filterProducts] with nothing selected returns the
    array it was given, not a copy, so sorting its result in place reorders
    the caller's array; with a selection it returns a new array and a sort
    of the result leaves the caller's array as it was. *)
Theorem filterProducts_shares_array
    (products : Store.loc) (selectedTags selectedSubCats : list string)
    (order : list Product -> list Product) (xs : list Product) (s : Store.State) :
  Store.heap s !! products = Some (Store.ArrProducts xs) ->
  let run tags subs :=
    (r ← CaspianData.filterProductsRef products tags subs;
     Store.sortArray order r) s in
  (run [] []).1 = products
  /\ Store.heap (run [] []).2 !! products = Some (Store.ArrProducts (order xs))
  /\ (selectedTags <> [] \/ selectedSubCats <> [] ->
      (run selectedTags selectedSubCats).1 <> products
      /\ Store.heap (run selectedTags selectedSubCats).2 !! products
         = Some (Store.ArrProducts xs)
      /\ Store.heap (run selectedTags selectedSubCats).2
           !! (run selectedTags selectedSubCats).1
         = Some (Store.ArrProducts
                   (order (CaspianData.filterProducts xs selectedTags selectedSubCats)))).
Proof.
  intros Hx. cbv zeta.
  assert (Hlt : (products < length (Store.heap s))%nat)
    by (by eapply lookup_lt_Some).
  split; [|split].
  - unfold CaspianData.filterProductsRef, Store.sortArray, mbind, Store.M_bind,
      mret, Store.M_ret, Store.read, Store.write. simpl. by rewrite Hx.
  - unfold CaspianData.filterProductsRef, Store.sortArray, mbind, Store.M_bind,
      mret, Store.M_ret, Store.read, Store.write. simpl. rewrite Hx. simpl.
    by apply list_lookup_insert_eq.
  - intros Hsel.
    assert (Hne : (length selectedTags =? 0)%nat && (length selectedSubCats =? 0)%nat
                  = false).
    { apply andb_false_iff.
      destruct Hsel as [H | H]; [left | right];
        apply not_true_is_false; by rewrite length_eqb_0. }
    unfold CaspianData.filterProductsRef. rewrite Hne.
    unfold CaspianData.filterProducts. rewrite Hne.
    unfold Store.sortArray, Store.filterArray, mbind, Store.M_bind,
      mret, Store.M_ret, Store.read, Store.write, Store.alloc. simpl.
    rewrite Hx, lookup_snoc. simpl. rewrite insert_snoc.
    split; [unfold Store.loc in *; lia|]. split.
    + by rewrite lookup_app_l.
    + apply lookup_snoc.
Qed.

Lemma filterProducts_shares_array_witness :
  let l := Store.productsData Sample.loaded in
  let run tags subs :=
    (r ← CaspianData.filterProductsRef l tags subs;
     Store.sortArray (@rev Product) r) Sample.loaded in
  Store.heap Sample.loaded !! l = Some (Store.ArrProducts Sample.products)
  /\ Store.heap (run [] []).2 !! l = Some (Store.ArrProducts (rev Sample.products))
  /\ Store.heap (run ["linen"%string] []).2 !! l
     = Some (Store.ArrProducts Sample.products).
Proof.
  cbv zeta.
  assert (Hx : Store.heap Sample.loaded !! Store.productsData Sample.loaded
               = Some (Store.ArrProducts Sample.products)) by reflexivity.
  split; [exact Hx|].
  pose proof (filterProducts_shares_array (Store.productsData Sample.loaded)
                ["linen"%string] [] (@rev Product) Sample.products Sample.loaded Hx)
    as (_ & Hsame & Hfresh).
  split; [exact Hsame|].
  apply Hfresh. left. discriminate.
Defined.

(** ** The platform button *)



(** ** The facets *)

Section CompareFacts.

Lemma ascii_compare_refl c : Ascii.compare c c = Eq.
Proof. unfold Ascii.compare. apply N.compare_refl. Qed.

Lemma string_compare_Lt_trans a b c :
  String.compare a b = Lt -> String.compare b c = Lt -> String.compare a c = Lt.
Proof.
  revert b c. induction a as [|x a IH]; intros [|y b] [|z c]; simpl; try done.
  unfold Ascii.compare.
  destruct (N.compare_spec (N_of_ascii x) (N_of_ascii y)) as [Exy|Lxy|Gxy];
    destruct (N.compare_spec (N_of_ascii y) (N_of_ascii z)) as [Eyz|Lyz|Gyz];
    destruct (N.compare_spec (N_of_ascii x) (N_of_ascii z)) as [Exz|Lxz|Gxz];
    try done; try lia.
  apply IH.
Qed.

(** [a] is not after [b]. *)
Let notAfter (a b : string) : Prop := String.compare a b <> Gt.

Lemma notAfter_trans a b c : notAfter a b -> notAfter b c -> notAfter a c.
Proof.
  unfold notAfter. intros Hab Hbc.
  destruct (String.compare a b) eqn:E1; [| |done].
  - apply String.compare_eq_iff in E1. by subst.
  - destruct (String.compare b c) eqn:E2; [| |done].
    + apply String.compare_eq_iff in E2. subst. by rewrite E1.
    + by rewrite (string_compare_Lt_trans a b c E1 E2).
Qed.

Lemma after_defaultCompare a b :
  JsArray.after JsArray.defaultCompare a b = true <-> String.compare a b = Gt.
Proof.
  unfold JsArray.after, JsArray.defaultCompare.
  destruct (String.compare a b); simpl; split; done.
Qed.

Lemma insertSorted_notAfter x l :
  StronglySorted notAfter l ->
  StronglySorted notAfter (JsArray.insertSorted JsArray.defaultCompare x l).
Proof.
  induction 1 as [|y l Hs IH Hy]; simpl.
  - repeat constructor.
  - destruct (JsArray.after JsArray.defaultCompare x y) eqn:E.
    + apply after_defaultCompare in E.
      assert (notAfter y x) as Hyx.
      { unfold notAfter. rewrite String.compare_antisym, E. done. }
      constructor; [done|].
      apply Forall_forall. intros z Hz.
      rewrite insertSorted_Permutation in Hz.
      apply elem_of_cons in Hz as [-> | Hz]; [done|].
      eapply (proj1 (Forall_forall _ _)) in Hy; [exact Hy | done].
    + assert (notAfter x y) as Hxy.
      { unfold notAfter. intros H. apply after_defaultCompare in H. congruence. }
      constructor; [by constructor|]. constructor; [done|].
      eapply Forall_impl; [exact Hy|]. intros z Hz.
      by apply (notAfter_trans x y z).
Qed.

Lemma sort_strings_sorted l :
  StronglySorted notAfter (JsArray.sort JsArray.defaultCompare l).
Proof.
  induction l as [|x l IH]; simpl; [constructor|].
  by apply insertSorted_notAfter.
Qed.

Lemma StronglySorted_strict l :
  NoDup l -> StronglySorted notAfter l -> StronglySorted codeUnitLt l.
Proof.
  intros Hnd Hs. induction Hs as [|x l Hs IH Hx]; [constructor|].
  apply NoDup_cons in Hnd as [Hnin Hnd]. constructor; [by apply IH|].
  apply Forall_forall. intros y Hy.
  eapply (proj1 (Forall_forall _ _)) in Hx; [|exact Hy].
  unfold notAfter in Hx. unfold codeUnitLt.
  destruct (String.compare x y) eqn:E; [|done|done].
  apply String.compare_eq_iff in E. by subst.
Qed.

(** Sorting a duplicate-free array of strings gives a strictly ascending
    array with the same elements. *)
Lemma sort_strings_strict l :
  NoDup l ->
  StronglySorted codeUnitLt (JsArray.sort JsArray.defaultCompare l)
  /\ forall t, t ∈ JsArray.sort JsArray.defaultCompare l <-> t ∈ l.
Proof.
  intros Hnd. split.
  - apply StronglySorted_strict; [|apply sort_strings_sorted].
    by rewrite sort_Permutation.
  - intros t. by rewrite sort_Permutation.
Qed.

End CompareFacts.

Lemma setAdd_elem x s t : t ∈ JsArray.setAdd x s <-> t ∈ s \/ t = x.
Proof.
  unfold JsArray.setAdd. case_bool_decide.
  - split; [by left|]. by intros [? | ->].
  - rewrite elem_of_app, list_elem_of_singleton. done.
Qed.

Lemma setAdd_NoDup x s : NoDup s -> NoDup (JsArray.setAdd x s).
Proof.
  intros Hnd. unfold JsArray.setAdd. case_bool_decide; [done|].
  apply NoDup_app. split; [done|]. split; [|apply NoDup_singleton].
  intros y Hy Hy'. apply list_elem_of_singleton in Hy'. by subst.
Qed.

(** A set built by adding, for each product, the strings [pick] selects. *)
Lemma collect_spec (pick : Product -> list string) products acc :
  let result :=
    fold_left (fun acc p => fold_left (fun acc t => JsArray.setAdd t acc) (pick p) acc)
              products acc in
  NoDup acc ->
  NoDup result
  /\ forall t, t ∈ result <-> t ∈ acc \/ exists p, p ∈ products /\ t ∈ pick p.
Proof.
  cbv zeta.
  assert (Hinner : forall ts acc,
            NoDup acc ->
            NoDup (fold_left (fun acc t => JsArray.setAdd t acc) ts acc)
            /\ forall t, t ∈ fold_left (fun acc t => JsArray.setAdd t acc) ts acc
                         <-> t ∈ acc \/ t ∈ ts).
  { induction ts as [|x ts IH]; intros acc0 Hnd; simpl.
    - split; [done|]. intros t. rewrite elem_of_nil. tauto.
    - destruct (IH (JsArray.setAdd x acc0) (setAdd_NoDup _ _ Hnd)) as [H1 H2].
      split; [done|]. intros t. rewrite H2, setAdd_elem, elem_of_cons. tauto. }
  revert acc. induction products as [|p l IH]; intros acc Hnd; simpl.
  - split; [done|]. intros t. split; [by left|]. intros [? | (p & Hp & _)]; [done|].
    by apply elem_of_nil in Hp.
  - destruct (Hinner (pick p) acc Hnd) as [H1 H2].
    destruct (IH _ H1) as [H3 H4]. split; [done|].
    intros t. rewrite H4, H2. split.
    + intros [[? | ?] | (q & Hq & Ht)]; [by left | right | right].
      * exists p. split; [by left | done].
      * exists q. split; [by right | done].
    + intros [? | (q & Hq & Ht)]; [by left; left|].
      apply elem_of_cons in Hq as [-> | Hq]; [left; by right|].
      right. by exists q.
Qed.

Lemma fold_left_ext_acc {A B : Type} (f g : A -> B -> A) l acc :
  (forall a b, f a b = g a b) -> fold_left f l acc = fold_left g l acc.
Proof.
  intros H. revert acc. induction l as [|x l IH]; intros acc; simpl; [done|].
  by rewrite H, IH.
Qed.

(** X14. [getUniqueTags] returns the tags of the products given, each one
    once, in strictly ascending order of their code units. *)
Theorem getUniqueTags_sorted_exact (products : list Product) :
  StronglySorted codeUnitLt (Views.getUniqueTags products)
  /\ (forall t, t ∈ Views.getUniqueTags products <->
        exists p ts, p ∈ products /\ tags p = Some ts /\ t ∈ ts).
Proof.
  unfold Views.getUniqueTags. cbv zeta.
  rewrite (fold_left_ext_acc _
             (fun acc p => fold_left (fun acc t => JsArray.setAdd t acc)
                                     (default [] (tags p)) acc)).
  2:{ intros acc p. by destruct (tags p). }
  destruct (collect_spec (fun p => default [] (tags p)) products [] (NoDup_nil_2))
    as [Hnd Hin].
  destruct (sort_strings_strict _ Hnd) as [Hs Hperm].
  split; [exact Hs|]. intros t. rewrite Hperm, Hin. split.
  - intros [H | (p & Hp & Ht)]; [by apply elem_of_nil in H|].
    destruct (tags p) as [ts|] eqn:E; simpl in Ht; [eauto|].
    by apply elem_of_nil in Ht.
  - intros (p & ts & Hp & E & Ht). right. exists p. by rewrite E.
Qed.

(** X15. [getUniqueSubCategories] returns the non-empty sub-categories of
    the products given, each one once, in strictly ascending order of their
    code units. *)
Theorem getUniqueSubCategories_sorted_exact (products : list Product) :
  StronglySorted codeUnitLt (Views.getUniqueSubCategories products)
  /\ (forall t, t ∈ Views.getUniqueSubCategories products <->
        t <> EmptyString /\ exists p, p ∈ products /\ sub_category p = Some t).
Proof.
  unfold Views.getUniqueSubCategories. cbv zeta.
  rewrite (fold_left_ext_acc _
             (fun acc p =>
                fold_left (fun acc t => JsArray.setAdd t acc)
                  (match sub_category p with
                   | Some sc => if JsString.truthy sc then [sc] else []
                   | None => []
                   end) acc)).
  2:{ intros acc p. destruct (sub_category p) as [sc|]; [|done].
      by destruct (JsString.truthy sc). }
  destruct (collect_spec
              (fun p => match sub_category p with
                        | Some sc => if JsString.truthy sc then [sc] else []
                        | None => []
                        end) products [] (NoDup_nil_2)) as [Hnd Hin].
  destruct (sort_strings_strict _ Hnd) as [Hs Hperm].
  split; [exact Hs|]. intros t. rewrite Hperm, Hin. split.
  - intros [H | (p & Hp & Ht)]; [by apply elem_of_nil in H|].
    destruct (sub_category p) as [sc|] eqn:E; [|by apply elem_of_nil in Ht].
    unfold JsString.truthy in Ht. case_bool_decide; simpl in Ht;
      [by apply elem_of_nil in Ht|].
    apply list_elem_of_singleton in Ht. subst. split; [done|]. eauto.
  - intros (Hne & p & Hp & E). right. exists p. split; [done|].
    rewrite E. unfold JsString.truthy.
    rewrite bool_decide_eq_false_2 by done. simpl. by left.
Qed.

Example getUniqueTags_sample :
  Views.getUniqueTags Sample.products
  = ["casual"; "cotton"; "gift"; "leather"; "linen"; "silk"]%string
  /\ Views.getUniqueSubCategories Sample.products = ["summer"; "winter"]%string.
Proof. by split. Qed.

(** ** Display text *)

Section DisplayFacts.
Import CaspianData.

Let notSpace (c : ascii) : bool := negb (bool_decide (c = " "%char)).
Let plain (c : ascii) : bool := isAsciiChar c && notSeparator c && notSpace c.

Lemma append_String' a s t : String a s +:+ t = String a (s +:+ t).
Proof. reflexivity. Qed.

Lemma append_Empty' t : EmptyString +:+ t = t.
Proof. reflexivity. Qed.

Lemma append_Empty_r s : s +:+ EmptyString = s.
Proof. induction s as [|c s IH]; [done|]. by rewrite append_String', IH. Qed.

Lemma length_append s t :
  String.length (s +:+ t) = (String.length s + String.length t)%nat.
Proof.
  induction s as [|c s IH]; [done|]. rewrite append_String'. simpl. by rewrite IH.
Qed.

Lemma allChars_append P s t :
  allChars P (s +:+ t) = allChars P s && allChars P t.
Proof.
  induction s as [|c s IH]; [done|]. rewrite append_String'. simpl.
  by rewrite IH, andb_assoc.
Qed.

Lemma allChars_impl (P Q : ascii -> bool) s :
  (forall c, P c = true -> Q c = true) -> allChars P s = true -> allChars Q s = true.
Proof.
  intros H. induction s as [|c s IH]; simpl; [done|].
  rewrite !andb_true_iff. intros [? ?]. split; [by apply H | by apply IH].
Qed.

(** The 256 code units. *)
Let allAscii : list ascii := map ascii_of_nat (seq 0 256).

Lemma forall_ascii (P : ascii -> bool) :
  forallb P allAscii = true -> forall c, P c = true.
Proof.
  intros H c. rewrite forallb_forall in H. apply H.
  rewrite <- (ascii_nat_embedding c). apply in_map, in_seq.
  pose proof (nat_ascii_bounded c). lia.
Qed.

Let upperOk (c : ascii) : bool :=
  implb (isAsciiChar c)
    match upperChar c with
    | String u EmptyString =>
        String.eqb (upperChar u) (String u EmptyString)
        && isAsciiChar u
        && implb (plain c) (plain u)
        && implb (notSeparator c) (notSeparator u)
    | _ => false
    end.

Let lowerOk (c : ascii) : bool :=
  implb (isAsciiChar c)
    (isAsciiChar (JsString.lowerChar c)
     && implb (plain c) (plain (JsString.lowerChar c))
     && implb (notSeparator c) (notSeparator (JsString.lowerChar c))).

(** Upper-casing an ASCII code unit gives one ASCII code unit, which is
    its own upper case. *)
Lemma upperChar_ascii c :
  isAsciiChar c = true ->
  exists u, upperChar c = String u EmptyString
            /\ upperChar u = String u EmptyString
            /\ isAsciiChar u = true
            /\ (plain c = true -> plain u = true)
            /\ (notSeparator c = true -> notSeparator u = true).
Proof.
  intros Hc.
  assert (H : upperOk c = true) by (apply forall_ascii; vm_compute; reflexivity).
  unfold upperOk in H. rewrite Hc in H. simpl in H.
  destruct (upperChar c) as [|u [|? ?]]; try discriminate H.
  exists u. rewrite !andb_true_iff in H. destruct H as [[[H1 H2] H3] H4].
  apply String.eqb_eq in H1. split; [done|]. split; [done|]. split; [done|].
  split; intros Hp; [by rewrite Hp in H3 | by rewrite Hp in H4].
Qed.

Lemma lowerChar_ascii c :
  isAsciiChar c = true ->
  isAsciiChar (JsString.lowerChar c) = true
  /\ (plain c = true -> plain (JsString.lowerChar c) = true)
  /\ (notSeparator c = true -> notSeparator (JsString.lowerChar c) = true).
Proof.
  intros Hc.
  assert (H : lowerOk c = true) by (apply forall_ascii; vm_compute; reflexivity).
  unfold lowerOk in H. rewrite Hc in H. simpl in H.
  rewrite !andb_true_iff in H. destruct H as [[H1 H2] H3].
  split; [done|]. split; intros Hp; [by rewrite Hp in H2 | by rewrite Hp in H3].
Qed.

Lemma toLowerCase_length s :
  String.length (JsString.toLowerCase s) = String.length s.
Proof. induction s as [|c s IH]; simpl; [done|]. by rewrite IH. Qed.

Lemma toLowerCase_allChars (P : ascii -> bool) s :
  (forall c, isAsciiChar c = true -> P c = true -> P (JsString.lowerChar c) = true) ->
  allChars isAsciiChar s = true -> allChars P s = true ->
  allChars P (JsString.toLowerCase s) = true.
Proof.
  intros H. induction s as [|c s IH]; simpl; [done|].
  rewrite !andb_true_iff. intros [? ?] [? ?]. split; [by apply H | by apply IH].
Qed.

Lemma capitalize_length w :
  allChars isAsciiChar w = true ->
  String.length (capitalize w) = String.length w.
Proof.
  destruct w as [|c r]; simpl; [done|]. rewrite andb_true_iff. intros [Hc _].
  destruct (upperChar_ascii c Hc) as (u & -> & _).
  rewrite append_String', append_Empty'. simpl. by rewrite toLowerCase_length.
Qed.

Lemma capitalize_allChars (P : ascii -> bool) w :
  (forall c, isAsciiChar c = true -> P c = true ->
             P (JsString.lowerChar c) = true /\
             forall u, upperChar c = String u EmptyString -> P u = true) ->
  allChars isAsciiChar w = true -> allChars P w = true ->
  allChars P (capitalize w) = true.
Proof.
  intros H. destruct w as [|c r]; simpl; [done|].
  rewrite !andb_true_iff. intros [Hc Hr] [Pc Pr].
  destruct (upperChar_ascii c Hc) as (u & Hu & _).
  rewrite Hu, append_String', append_Empty'. simpl. apply andb_true_iff. split.
  - destruct (H c Hc Pc) as [_ H2]. by apply H2.
  - apply toLowerCase_allChars; [|done|done]. intros d Hd Pd.
    by destruct (H d Hd Pd).
Qed.

Lemma capitalize_idemp w :
  allChars isAsciiChar w = true -> capitalize (capitalize w) = capitalize w.
Proof.
  destruct w as [|c r]; simpl; [done|]. rewrite andb_true_iff. intros [Hc _].
  destruct (upperChar_ascii c Hc) as (u & Hu & Huu & _).
  rewrite Hu, append_String', append_Empty'. simpl.
  by rewrite Huu, append_String', append_Empty', toLowerCase_idemp.
Qed.

Lemma replaceSeparators_length s :
  String.length (replaceSeparators s) = String.length s.
Proof. induction s as [|c s IH]; simpl; [done|]. by rewrite IH. Qed.

Lemma replaceSeparators_clean s :
  allChars notSeparator (replaceSeparators s) = true.
Proof.
  induction s as [|c s IH]; simpl; [done|]. rewrite IH, andb_true_r.
  unfold notSeparator. repeat case_bool_decide; subst; done.
Qed.

Lemma replaceSeparators_ascii s :
  allChars isAsciiChar s = true -> allChars isAsciiChar (replaceSeparators s) = true.
Proof.
  induction s as [|c s IH]; simpl; [done|]. rewrite !andb_true_iff.
  intros [Hc Hs]. split; [|by apply IH]. by repeat case_bool_decide.
Qed.

Lemma replaceSeparators_id s :
  allChars notSeparator s = true -> replaceSeparators s = s.
Proof.
  induction s as [|c s IH]; simpl; [done|]. rewrite andb_true_iff.
  intros [Hc Hs]. rewrite (IH Hs). unfold notSeparator in Hc.
  apply andb_true_iff in Hc as [H1 H2].
  apply negb_true_iff in H1, H2. by rewrite H1, H2.
Qed.

Lemma split_nonempty s : split s <> [].
Proof.
  destruct s as [|c s]; simpl; [done|].
  case_bool_decide; [done|]. by destruct (split s).
Qed.

Lemma join_cons w ws :
  ws <> [] -> join (w :: ws) = w +:+ " " +:+ join ws.
Proof. by destruct ws. Qed.

Lemma join_split s : join (split s) = s.
Proof.
  induction s as [|c s IH]; simpl; [done|].
  case_bool_decide as Hc.
  - subst. rewrite join_cons by apply split_nonempty.
    by rewrite IH, append_Empty', append_String', append_Empty'.
  - pose proof (split_nonempty s) as Hne.
    destruct (split s) as [|w ws]; [done|].
    destruct ws as [|w' ws].
    + simpl in *. by rewrite IH.
    + rewrite join_cons in IH by done. rewrite join_cons by done.
      by rewrite append_String', IH.
Qed.

Lemma split_allChars (P : ascii -> bool) s :
  allChars P s = true -> Forall (fun w => allChars P w = true) (split s).
Proof.
  induction s as [|c s IH]; simpl.
  - intros _. by repeat constructor.
  - rewrite andb_true_iff. intros [Hc Hs]. specialize (IH Hs).
    case_bool_decide; [by constructor|].
    destruct (split s) as [|w ws]; [by repeat constructor; simpl; rewrite Hc|].
    inversion IH; subst. constructor; [|done]. simpl. by rewrite Hc.
Qed.

Lemma split_notSpace s :
  Forall (fun w => allChars notSpace w = true) (split s).
Proof.
  induction s as [|c s IH]; simpl.
  - by repeat constructor.
  - case_bool_decide as Hc; [by constructor|].
    assert (notSpace c = true) as Hn
      by (unfold notSpace; by rewrite bool_decide_eq_false_2).
    destruct (split s) as [|w ws]; [by repeat constructor; simpl; rewrite Hn|].
    inversion IH; subst. constructor; [|done]. simpl. by rewrite Hn.
Qed.

Lemma split_word w :
  allChars notSpace w = true -> split w = [w].
Proof.
  induction w as [|c w IH]; simpl; [done|]. rewrite andb_true_iff.
  intros [Hc Hw]. unfold notSpace in Hc. apply negb_true_iff in Hc.
  rewrite Hc. by rewrite (IH Hw).
Qed.

Lemma split_append w s :
  allChars notSpace w = true ->
  split (w +:+ " " +:+ s) = w :: split s.
Proof.
  induction w as [|c w IH]; intros Hw.
  - by rewrite append_Empty', append_String', append_Empty'.
  - simpl in Hw. apply andb_true_iff in Hw as [Hc Hw].
    rewrite append_String'. simpl. unfold notSpace in Hc.
    apply negb_true_iff in Hc. rewrite Hc. by rewrite (IH Hw).
Qed.

Lemma split_join ws :
  ws <> [] -> Forall (fun w => allChars notSpace w = true) ws ->
  split (join ws) = ws.
Proof.
  induction ws as [|w ws IH]; intros Hne Hws; [done|].
  inversion Hws as [|? ? Hw Hws']; subst.
  destruct ws as [|w' ws].
  - simpl. by apply split_word.
  - rewrite join_cons by done. rewrite split_append by done.
    by rewrite IH.
Qed.

Lemma join_length_map (f : string -> string) ws :
  Forall (fun w => String.length (f w) = String.length w) ws ->
  String.length (join (map f ws)) = String.length (join ws).
Proof.
  induction 1 as [|w ws Hw Hws IH]; [done|].
  destruct ws as [|w' ws]; [done|].
  rewrite join_cons by done. change (map f (w :: w' :: ws))
    with (f w :: map f (w' :: ws)).
  rewrite join_cons by done. rewrite !length_append, Hw, IH. done.
Qed.

Lemma join_allChars (P : ascii -> bool) ws :
  P " "%char = true -> Forall (fun w => allChars P w = true) ws ->
  allChars P (join ws) = true.
Proof.
  intros Hsp. induction 1 as [|w ws Hw Hws IH]; [done|].
  destruct ws as [|w' ws]; [done|].
  rewrite join_cons by done.
  rewrite !allChars_append, Hw, IH. simpl. by rewrite Hsp.
Qed.

(** The words of the text: ASCII, without separator or space. *)
Lemma words_plain text0 :
  allChars isAsciiChar text0 = true ->
  Forall (fun w => allChars plain w = true) (split (replaceSeparators text0)).
Proof.
  intros Ha.
  pose proof (split_allChars isAsciiChar _ (replaceSeparators_ascii _ Ha)) as H1.
  pose proof (split_allChars notSeparator _ (replaceSeparators_clean text0)) as H2.
  pose proof (split_notSpace (replaceSeparators text0)) as H3.
  rewrite Forall_forall in *. intros w Hw.
  specialize (H1 w Hw). specialize (H2 w Hw). specialize (H3 w Hw).
  clear Hw. induction w as [|c w IH]; simpl in *; [done|].
  apply andb_true_iff in H1 as [? ?], H2 as [? ?], H3 as [? ?].
  apply andb_true_iff. split; [|by apply IH].
  unfold plain. by rewrite !andb_true_iff.
Qed.

Lemma capitalize_plain w :
  allChars plain w = true -> allChars plain (capitalize w) = true.
Proof.
  intros Hw.
  assert (Ha : allChars isAsciiChar w = true).
  { eapply allChars_impl; [|exact Hw]. intros c. unfold plain.
    rewrite !andb_true_iff. tauto. }
  apply capitalize_allChars; [|done|done].
  intros c Hc Pc. split; [by apply lowerChar_ascii|].
  intros u Hu. destruct (upperChar_ascii c Hc) as (u' & Hu' & _ & _ & Hp & _).
  rewrite Hu' in Hu. injection Hu as <-. by apply Hp.
Qed.

Lemma formatDisplayText_words text0 :
  text0 <> EmptyString ->
  formatDisplayText text0
  = join (map capitalize (split (replaceSeparators text0))).
Proof.
  intros Hne. unfold formatDisplayText, JsString.truthy.
  by rewrite bool_decide_eq_false_2.
Qed.

Lemma formatDisplayText_shape_aux text0 :
  allChars isAsciiChar text0 = true ->
  String.length (formatDisplayText text0) = String.length text0
  /\ allChars notSeparator (formatDisplayText text0) = true
  /\ allChars isAsciiChar (formatDisplayText text0) = true.
Proof.
  intros Ha. destruct (decide (text0 = EmptyString)) as [-> | Hne]; [done|].
  rewrite formatDisplayText_words by done.
  pose proof (words_plain text0 Ha) as Hw.
  assert (Hasc : Forall (fun w => allChars isAsciiChar w = true)
                   (split (replaceSeparators text0))).
  { eapply Forall_impl; [exact Hw|]. intros w. apply allChars_impl.
    intros c. unfold plain. rewrite !andb_true_iff. tauto. }
  assert (Hcap : Forall (fun w => allChars plain w = true)
                   (map capitalize (split (replaceSeparators text0)))).
  { apply Forall_fmap. eapply Forall_impl; [exact Hw|]. intros w.
    apply capitalize_plain. }
  split; [|split].
  - rewrite join_length_map.
    + by rewrite join_split, replaceSeparators_length.
    + eapply Forall_impl; [exact Hasc|]. intros w. apply capitalize_length.
  - apply join_allChars; [done|].
    eapply Forall_impl; [exact Hcap|]. intros w. apply allChars_impl.
    intros c. unfold plain. rewrite !andb_true_iff. tauto.
  - apply join_allChars; [done|].
    eapply Forall_impl; [exact Hcap|]. intros w. apply allChars_impl.
    intros c. unfold plain. rewrite !andb_true_iff. tauto.
Qed.

Lemma formatDisplayText_idemp_aux text0 :
  allChars isAsciiChar text0 = true ->
  formatDisplayText (formatDisplayText text0) = formatDisplayText text0.
Proof.
  intros Ha. destruct (decide (text0 = EmptyString)) as [-> | Hne]; [done|].
  destruct (decide (formatDisplayText text0 = EmptyString)) as [E | Hne'].
  { by rewrite E. }
  rewrite (formatDisplayText_words (formatDisplayText text0)) by done.
  rewrite (formatDisplayText_words text0) by done.
  pose proof (words_plain text0 Ha) as Hw.
  set (ws := split (replaceSeparators text0)) in *.
  assert (Hcap : Forall (fun w => allChars plain w = true) (map capitalize ws)).
  { apply Forall_fmap. eapply Forall_impl; [exact Hw|]. intros w.
    apply capitalize_plain. }
  rewrite replaceSeparators_id.
  2:{ apply join_allChars; [done|].
      eapply Forall_impl; [exact Hcap|]. intros w. apply allChars_impl.
      intros c. unfold plain. rewrite !andb_true_iff. tauto. }
  rewrite split_join.
  2:{ unfold ws. pose proof (split_nonempty (replaceSeparators text0)).
      by destruct (split (replaceSeparators text0)). }
  2:{ eapply Forall_impl; [exact Hcap|]. intros w. apply allChars_impl.
      intros c. unfold plain. rewrite !andb_true_iff. tauto. }
  f_equal. rewrite <- list_fmap_compose. apply Forall_fmap_ext_1.
  eapply Forall_impl; [exact Hw|]. intros w Hpw. simpl.
  apply capitalize_idemp. eapply allChars_impl; [|exact Hpw].
  intros c. unfold plain. rewrite !andb_true_iff. tauto.
Qed.

End DisplayFacts.

(** X16. For ASCII text, [formatDisplayText] keeps the length of the text
    and leaves no hyphen and no underscore in it; the empty text stays
    empty. *)
Theorem formatDisplayText_shape (text0 : string) :
  isAsciiText text0 ->
  String.length (CaspianData.formatDisplayText text0) = String.length text0
  /\ allChars notSeparator (CaspianData.formatDisplayText text0) = true
  /\ isAsciiText (CaspianData.formatDisplayText text0).
Proof. apply formatDisplayText_shape_aux. Qed.

Lemma formatDisplayText_shape_witness :
  isAsciiText "summer-wear_2024 HOT"
  /\ CaspianData.formatDisplayText "summer-wear_2024 HOT" = "Summer Wear 2024 Hot"%string
  /\ String.length (CaspianData.formatDisplayText "summer-wear_2024 HOT") = 20%nat.
Proof.
  split; [reflexivity|]. split; [reflexivity|].
  apply (formatDisplayText_shape "summer-wear_2024 HOT"). reflexivity.
Defined.

(** X17. For ASCII text, formatting text that is already formatted
    changes nothing. *)
Theorem formatDisplayText_idempotent (text0 : string) :
  isAsciiText text0 ->
  CaspianData.formatDisplayText (CaspianData.formatDisplayText text0)
  = CaspianData.formatDisplayText text0.
Proof. apply formatDisplayText_idemp_aux. Qed.

Lemma formatDisplayText_idempotent_witness :
  isAsciiText "block_print-KURTA"
  /\ CaspianData.formatDisplayText "block_print-KURTA" = "Block Print Kurta"%string
  /\ CaspianData.formatDisplayText "Block Print Kurta" = "Block Print Kurta"%string.
Proof.
  split; [reflexivity|]. split; [reflexivity|].
  apply (formatDisplayText_idempotent "block_print-KURTA"). reflexivity.
Defined.

(** Outside ASCII the length can change: the capital of the sharp s is
    two letters. *)
Example formatDisplayText_sharp_s :
  CaspianData.formatDisplayText (String (ascii_of_nat 223) "a") = "SSa"%string.
Proof. reflexivity. Qed.

(** ** The hero slider *)

Lemma nextSlide_mod len cur :
  0 < len -> 0 <= cur -> HomePage.nextSlide len cur = (cur + 1) mod len.
Proof. intros Hl Hc. unfold HomePage.nextSlide. apply Z.rem_mod_nonneg; lia. Qed.

Lemma nextSlide_iter len cur (k : nat) :
  0 < len -> 0 <= cur < len ->
  Nat.iter k (HomePage.nextSlide len) cur = (cur + Z.of_nat k) mod len.
Proof.
  intros Hl Hc. induction k as [|k IH].
  - simpl. rewrite Z.add_0_r. symmetry. by apply Z.mod_small.
  - rewrite Nat.iter_succ, IH.
    rewrite nextSlide_mod; [|done|by apply Z.mod_pos_bound].
    rewrite Zplus_mod_idemp_l. f_equal. lia.
Qed.

(** X18. With the slider on a slide of the banner, [nextSlide] moves to the
    following slide, from the last one back to the first, and after as many
    steps as there are slides the slider is on the slide where it started. *)
Theorem nextSlide_cycles (slidesLength currentSlide : Z) :
  0 < slidesLength ->
  0 <= currentSlide < slidesLength ->
  0 <= HomePage.nextSlide slidesLength currentSlide < slidesLength
  /\ (currentSlide + 1 < slidesLength ->
      HomePage.nextSlide slidesLength currentSlide = currentSlide + 1)
  /\ (currentSlide + 1 = slidesLength ->
      HomePage.nextSlide slidesLength currentSlide = 0)
  /\ Nat.iter (Z.to_nat slidesLength) (HomePage.nextSlide slidesLength) currentSlide
     = currentSlide.
Proof.
  intros Hl Hc. rewrite nextSlide_mod by lia. split; [|split; [|split]].
  - by apply Z.mod_pos_bound.
  - intros H. apply Z.mod_small. lia.
  - intros ->. by apply Z_mod_same_full.
  - rewrite nextSlide_iter by done. rewrite Z2Nat.id by lia.
    rewrite <- (Z.mul_1_l slidesLength) at 1.
    rewrite Z.mod_add by lia. apply Z.mod_small. lia.
Qed.

Lemma nextSlide_cycles_witness :
  0 < 3 /\ 0 <= 2 < 3
  /\ HomePage.nextSlide 3 2 = 0
  /\ Nat.iter 3 (HomePage.nextSlide 3) 2 = 2.
Proof.
  split; [lia|]. split; [lia|].
  destruct (nextSlide_cycles 3 2) as (_ & _ & Hwrap & Hcycle); [lia | lia |].
  split; [apply Hwrap; lia | exact Hcycle].
Defined.

(** ** The deals page *)

Section DealsFacts.
Import DealsPage.
Context (h : Host) (price : Product -> string) (rating : Product -> QArith_base.Q).

Lemma sortBy_Permutation v l : sortBy h price rating v l ≡ₚ l.
Proof. unfold sortBy. repeat case_bool_decide; try apply sort_Permutation; done. Qed.

Lemma pos_length {A : Type} (l : list A) : (0 <? length l)%nat = true <-> l <> [].
Proof. destruct l; simpl; split; done. Qed.

Lemma matching_filter st :
  matching st
  = List.filter
      (fun p =>
         (if (0 <? length (selectedCategories st))%nat
          then includes (selectedCategories st) (category p) else true)
         && (if (0 <? length (selectedTags st))%nat
             then forallb (fun tag => match tags p with
                                      | Some ts => includes ts tag
                                      | None => false
                                      end) (selectedTags st)
             else true))
      (allDeals st).
Proof.
  unfold matching. cbv zeta.
  assert (Hid : forall l : list Product, List.filter (fun _ => true) l = l).
  { induction l as [|x l IH]; simpl; [done|]. by rewrite IH. }
  destruct (0 <? length (selectedCategories st))%nat;
    destruct (0 <? length (selectedTags st))%nat; simpl.
  - by rewrite filter_filter.
  - apply filter_ext. intros p. by rewrite andb_true_r.
  - done.
  - by rewrite Hid.
Qed.

Lemma matching_exactly st :
  exactlyThose (dealMatches st) (allDeals st) (matching st).
Proof.
  rewrite matching_filter. apply filter_exactlyThose. intros p.
  unfold dealMatches. rewrite andb_true_iff.
  assert (Hc : (if (0 <? length (selectedCategories st))%nat
                then includes (selectedCategories st) (category p) else true) = true
               <-> (selectedCategories st <> [] ->
                    category p ∈ selectedCategories st)).
  { destruct (selectedCategories st) as [|c l]; simpl; [done|].
    unfold includes. rewrite bool_decide_eq_true. split; [done|].
    intros H. by apply H. }
  assert (Ht : (if (0 <? length (selectedTags st))%nat
                then forallb (fun tag => match tags p with
                                         | Some ts => includes ts tag
                                         | None => false
                                         end) (selectedTags st)
                else true) = true
               <-> forall tag, tag ∈ selectedTags st ->
                               exists ts, tags p = Some ts /\ tag ∈ ts).
  { destruct (selectedTags st) as [|t0 l] eqn:E.
    - split; [|done]. intros _ tag Hin. by apply elem_of_nil in Hin.
    - change (0 <? length (t0 :: l))%nat with true. cbv iota.
      rewrite forallb_forall. split.
      + intros H tag Hin. apply list_elem_of_In, H in Hin.
        destruct (tags p) as [ts|]; [|done].
        apply bool_decide_eq_true in Hin. eauto.
      + intros H tag Hin. apply list_elem_of_In, H in Hin as (ts & -> & Hin).
        by apply bool_decide_eq_true. }
  by rewrite Hc, Ht.
Qed.

Lemma applyFilters_fields v st :
  allDeals (applyFilters h price rating v st) = allDeals st
  /\ selectedCategories (applyFilters h price rating v st) = selectedCategories st
  /\ selectedTags (applyFilters h price rating v st) = selectedTags st
  /\ currentSort (applyFilters h price rating v st) = v
  /\ filteredDeals (applyFilters h price rating v st)
     = sortBy h price rating v (matching st).
Proof. done. Qed.

Lemma applyFilters_consistent v st :
  let st' := applyFilters h price rating v st in
  filteredDeals st' ≡ₚ matching st'.
Proof. cbv zeta. simpl. apply sortBy_Permutation. Qed.

End DealsFacts.

(** X19. After [applyFilters] the deals page shows, in some order, exactly
    the deals whose category is selected, when any is, and that carry all
    the selected tags; the count shown is at most the total, and a sort
    value that is none of the four known ones keeps the order of the deals. *)
Theorem applyFilters_shows_matching
    (h : Host) (price : Product -> string) (rating : Product -> QArith_base.Q)
    (sortValue : string) (st : DealsPage.State) :
  let st' := DealsPage.applyFilters h price rating sortValue st in
  (exists kept,
     exactlyThose (dealMatches st) (DealsPage.allDeals st) kept
     /\ DealsPage.filteredDeals st' ≡ₚ kept
     /\ (sortValue ∉ ["newest"; "price-low"; "price-high"; "rating"]%string ->
         DealsPage.filteredDeals st' = kept))
  /\ (length (DealsPage.filteredDeals st') <= length (DealsPage.allDeals st'))%nat
  /\ DealsPage.allDeals st' = DealsPage.allDeals st
  /\ DealsPage.selectedCategories st' = DealsPage.selectedCategories st
  /\ DealsPage.selectedTags st' = DealsPage.selectedTags st.
Proof.
  cbv zeta. split; [|split; [|done]].
  - exists (DealsPage.matching st). split; [apply matching_exactly|].
    split; [apply sortBy_Permutation|].
    intros Hv. simpl. unfold DealsPage.sortBy.
    repeat case_bool_decide; subst; try done; exfalso; apply Hv;
      apply list_elem_of_In; vm_compute; tauto.
  - simpl. rewrite (sortBy_Permutation h price rating sortValue).
    apply sublist_length. destruct (matching_exactly st) as [Hs _]. exact Hs.
Qed.

Section SortOrder.
Context {A : Type} (cmp : A -> A -> option Z) (le : A -> A -> Prop).
Hypothesis le_trans : forall a b c, le a b -> le b c -> le a c.
Hypothesis after_le : forall x y, JsArray.after cmp x y = true -> le y x.
Hypothesis not_after_le : forall x y, JsArray.after cmp x y = false -> le x y.



End SortOrder.


Section DealsOrder.
Import DealsPage.
Context (h : Host) (price : Product -> string) (rating : Product -> QArith_base.Q).




End DealsOrder.



(** The digits of a price are read as one number: a price with paise is
    taken for a hundred times its amount. *)
Example parsePrice_decimal :
  DealsPage.parsePrice "Rs. 1,299.50" = Some 129950
  /\ DealsPage.parsePrice "Rs. 1,300" = Some 1300
  /\ DealsPage.parsePrice "Free" = None.
Proof. by repeat split. Qed.

Section DealsInvariant.
Import DealsPage.
Context (h : Host) (price : Product -> string) (rating : Product -> QArith_base.Q).

Lemma matching_fields st st' :
  allDeals st' = allDeals st -> selectedCategories st' = selectedCategories st ->
  selectedTags st' = selectedTags st -> matching st' = matching st.
Proof. intros H1 H2 H3. unfold matching. by rewrite H1, H2, H3. Qed.

Lemma NoDup_filter_list {A : Type} (f : A -> bool) (l : list A) :
  NoDup l -> NoDup (List.filter f l).
Proof.
  induction 1 as [|x l Hx Hl IH]; simpl; [constructor|].
  destruct (f x); [|done]. constructor; [|done].
  intros Hin. apply Hx. apply list_elem_of_In in Hin. apply filter_In in Hin.
  by apply list_elem_of_In, Hin.
Qed.

Lemma NoDup_push (l : list string) x :
  NoDup l -> NoDup (if negb (includes l x) then l ++ [x] else l).
Proof.
  intros Hl. unfold includes. case_bool_decide; simpl; [done|].
  apply NoDup_app. split; [done|]. split; [|apply NoDup_singleton].
  intros y Hy Hy'. apply list_elem_of_singleton in Hy'. by subst.
Qed.

Lemma applyFilters_inv deals v st :
  allDeals st = deals -> NoDup (selectedCategories st) -> NoDup (selectedTags st) ->
  pageInv deals (applyFilters h price rating v st).
Proof.
  intros Hd Hc Ht. split; [done|]. split; [done|]. split; [done|].
  apply applyFilters_consistent.
Qed.

Lemma handle_inv deals e st :
  pageInv deals st -> pageInv deals (handle h price rating e st).
Proof.
  intros (Hd & Hc & Ht & Hf). destruct e as [c checked v | t checked v | v | ty x v | v];
    simpl.
  - unfold handleCategoryChange. cbv zeta. apply applyFilters_inv.
    + by destruct checked, (negb (includes (selectedCategories st) c)).
    + destruct checked; simpl.
      * pose proof (NoDup_push (selectedCategories st) c Hc).
        by destruct (negb (includes (selectedCategories st) c)).
      * by apply NoDup_filter_list.
    + by destruct checked, (negb (includes (selectedCategories st) c)).
  - unfold handleTagChange. cbv zeta. apply applyFilters_inv.
    + by destruct checked, (negb (includes (selectedTags st) t)).
    + by destruct checked, (negb (includes (selectedTags st) t)).
    + destruct checked; simpl.
      * pose proof (NoDup_push (selectedTags st) t Ht).
        by destruct (negb (includes (selectedTags st) t)).
      * by apply NoDup_filter_list.
  - split; [done|]. split; [done|]. split; [done|]. simpl.
    rewrite sortBy_Permutation, Hf. done.
  - unfold removeFilter. cbv zeta. apply applyFilters_inv.
    + by repeat case_bool_decide.
    + repeat case_bool_decide; simpl; try done. by apply NoDup_filter_list.
    + repeat case_bool_decide; simpl; try done. by apply NoDup_filter_list.
  - unfold clearAllFilters. apply applyFilters_inv; simpl; [done | |];
      apply NoDup_nil_2.
Qed.

Lemma run_inv deals events st :
  pageInv deals st -> pageInv deals (run h price rating events st).
Proof.
  revert st. induction events as [|e events IH]; intros st Hst; simpl; [done|].
  by apply IH, handle_inv.
Qed.

End DealsInvariant.

(** X21. Whatever the visitor does on the deals page after it has
    started, the selections hold no category and no tag twice, the page shows
    exactly the deals that match them, every product shown is active,
    published and featured, and the count shown is at most the total. *)
Theorem dealsPage_invariant
    (h : Host) (price : Product -> string) (rating : Product -> QArith_base.Q)
    (productsData : list Product) (sortValue : string)
    (events : list DealsPage.Event) :
  let st := DealsPage.run h price rating events
              (DealsPage.start h price rating productsData sortValue) in
  DealsPage.allDeals st = Views.getFeaturedProducts h productsData
  /\ NoDup (DealsPage.selectedCategories st)
  /\ NoDup (DealsPage.selectedTags st)
  /\ (exists kept,
        exactlyThose (dealMatches st) (DealsPage.allDeals st) kept
        /\ DealsPage.filteredDeals st ≡ₚ kept)
  /\ (forall p, p ∈ DealsPage.filteredDeals st ->
        p ∈ productsData /\ active p = 1 /\
        Views.isProductPublished h p = true /\ featured p = 1)
  /\ (length (DealsPage.filteredDeals st) <= length (DealsPage.allDeals st))%nat.
Proof.
  cbv zeta.
  set (st := DealsPage.run h price rating events
               (DealsPage.start h price rating productsData sortValue)).
  assert (Hinv : pageInv (Views.getFeaturedProducts h productsData) st).
  { apply run_inv. apply applyFilters_inv; simpl; [done | |]; apply NoDup_nil_2. }
  destruct Hinv as (Hd & Hc & Ht & Hf).
  destruct (matching_exactly st) as (Hsub & Hall & Hmax).
  split; [done|]. split; [done|]. split; [done|]. split; [|split].
  - exists (DealsPage.matching st). split; [|done]. by split.
  - intros p Hp. rewrite Hf in Hp.
    assert (p ∈ Views.getFeaturedProducts h productsData) as Hin.
    { rewrite <- Hd. eapply sublist_subseteq; [exact Hsub | exact Hp]. }
    unfold Views.getFeaturedProducts in Hin.
    apply list_elem_of_In, filter_In in Hin as [Hin Hfe].
    apply list_elem_of_In, getAllActiveProducts_elem in Hin as (? & ? & ?).
    apply Z.eqb_eq in Hfe. done.
  - rewrite Hf. by apply sublist_length.
Qed.

Section TagFacts.
Import DealsPage.
Context (h : Host) (price : Product -> string) (rating : Product -> QArith_base.Q).

Lemma handleTagChange_tags tag checked v st :
  selectedTags (handleTagChange h price rating tag checked v st)
  = if checked
    then (if negb (includes (selectedTags st) tag)
          then selectedTags st ++ [tag] else selectedTags st)
    else List.filter (fun t => negb (bool_decide (t = tag))) (selectedTags st).
Proof.
  unfold handleTagChange. cbv zeta.
  by destruct checked, (negb (includes (selectedTags st) tag)).
Qed.

Lemma handleTagChange_fields tag checked v st :
  allDeals (handleTagChange h price rating tag checked v st) = allDeals st
  /\ selectedCategories (handleTagChange h price rating tag checked v st)
     = selectedCategories st.
Proof.
  unfold handleTagChange. cbv zeta.
  by destruct checked, (negb (includes (selectedTags st) tag)).
Qed.

End TagFacts.

(** X22. [handleTagChange] selects the tag when its box is checked and
    removes it when the box is not; the other tags and the selected
    categories stay as they were. Checking a tag only narrows the display:
    every deal shown afterwards was shown before. *)
Theorem handleTagChange_selects
    (h : Host) (price : Product -> string) (rating : Product -> QArith_base.Q)
    (tag : string) (checked : bool) (sortValue : string) (st : DealsPage.State) :
  let st' := DealsPage.handleTagChange h price rating tag checked sortValue st in
  (tag ∈ DealsPage.selectedTags st' <-> checked = true)
  /\ (forall t, t <> tag ->
        (t ∈ DealsPage.selectedTags st' <-> t ∈ DealsPage.selectedTags st))
  /\ DealsPage.selectedCategories st' = DealsPage.selectedCategories st
  /\ (checked = true ->
      DealsPage.filteredDeals st ≡ₚ DealsPage.matching st ->
      forall p, p ∈ DealsPage.filteredDeals st' -> p ∈ DealsPage.filteredDeals st).
Proof.
  cbv zeta.
  pose proof (handleTagChange_tags h price rating tag checked sortValue st) as Htags.
  destruct (handleTagChange_fields h price rating tag checked sortValue st)
    as [Hdeals Hcats].
  assert (Hmem : forall t,
            t ∈ DealsPage.selectedTags
                  (DealsPage.handleTagChange h price rating tag checked sortValue st)
            <-> (if checked then t ∈ DealsPage.selectedTags st \/ t = tag
                 else t ∈ DealsPage.selectedTags st /\ t <> tag)).
  { intros t. rewrite Htags. destruct checked.
    - unfold DealsPage.includes. case_bool_decide; simpl.
      + split; [by left|]. by intros [? | ->].
      + by rewrite elem_of_app, list_elem_of_singleton.
    - rewrite list_elem_of_In, filter_In, <- list_elem_of_In, negb_true_iff,
        bool_decide_eq_false. done. }
  split; [|split; [|split; [done|]]].
  - rewrite Hmem. destruct checked; [split; [done | by right]|].
    split; [by intros [_ ?] | done].
  - intros t Hne. rewrite Hmem. destruct checked; [|tauto].
    split; [by intros [? | ?] | by left].
  - intros -> Hshown p Hp.
    set (st' := DealsPage.handleTagChange h price rating tag true sortValue st) in *.
    assert (Hp' : p ∈ DealsPage.matching st').
    { unfold st' in *. unfold DealsPage.handleTagChange in Hp |- *. cbv zeta in *.
      rewrite (applyFilters_consistent h price rating) in Hp. exact Hp. }
    destruct (matching_exactly st') as (Hsub' & Hall' & _).
    destruct (matching_exactly st) as (_ & _ & Hmax).
    rewrite Hshown.
    assert (Hm : dealMatches st p).
    { eapply (proj1 (Forall_forall _ _)) in Hall'; [|exact Hp'].
      destruct Hall' as [Hc Ht]. split.
      - rewrite <- Hcats. exact Hc.
      - intros t Ht'. apply Ht. rewrite Hmem. by left. }
    assert (Hin : p ∈ DealsPage.allDeals st).
    { rewrite <- Hdeals. eapply sublist_subseteq; [exact Hsub' | exact Hp']. }
    assert (Hsing : sublist [p] (DealsPage.matching st)).
    { apply Hmax; [|by constructor].
      apply singleton_sublist_l. exact Hin. }
    apply singleton_sublist_l in Hsing. exact Hsing.
Qed.

Lemma handleTagChange_selects_witness :
  let st := DealsPage.start Sample.host DealsSample.price DealsSample.rating
              DealsSample.products "newest" in
  let st' := DealsPage.handleTagChange Sample.host DealsSample.price
               DealsSample.rating "silk" true "newest" st in
  DealsPage.filteredDeals st ≡ₚ DealsPage.matching st
  /\ map id (DealsPage.filteredDeals st) = ["p2"; "p7"; "p1"]%string
  /\ map id (DealsPage.filteredDeals st') = ["p2"; "p1"]%string
  /\ forall p, p ∈ DealsPage.filteredDeals st' -> p ∈ DealsPage.filteredDeals st.
Proof.
  cbv zeta.
  assert (Hshown :
    DealsPage.filteredDeals
      (DealsPage.start Sample.host DealsSample.price DealsSample.rating
         DealsSample.products "newest")
    ≡ₚ DealsPage.matching
         (DealsPage.start Sample.host DealsSample.price DealsSample.rating
            DealsSample.products "newest")).
  { apply applyFilters_consistent. }
  split; [exact Hshown|]. split; [reflexivity|]. split; [reflexivity|].
  apply (handleTagChange_selects Sample.host DealsSample.price DealsSample.rating
           "silk" true "newest"
           (DealsPage.start Sample.host DealsSample.price DealsSample.rating
              DealsSample.products "newest")); [reflexivity | exact Hshown].
Defined.

(** X23. The category filters that the deals page offers are exactly the
    entries of the category catalog that are the category of at least one
    deal, in catalog order. *)
Theorem filterCategories_exactly
    (h : Host) (productsData : list Product) (categoriesData : list Category) :
  exactlyThose
    (fun cat => exists p, p ∈ Views.getFeaturedProducts h productsData /\
                          category p = cat_id cat)
    categoriesData
    (DealsPage.filterCategories h productsData categoriesData
       (Views.getFeaturedProducts h productsData)).
Proof.
  unfold DealsPage.filterCategories, Views.getAllCategories. cbv zeta.
  rewrite filter_filter. apply filter_exactlyThose. intros cat.
  unfold DealsPage.includes.
  rewrite andb_true_iff, !bool_decide_eq_true, elem_of_list_to_set,
    !list_elem_of_fmap.
  split.
  - intros [_ (p & Hc & Hp)]. eauto.
  - intros (p & Hp & Hc). split; exists p; (split; [done|]); [|done].
    unfold Views.getFeaturedProducts in Hp.
    apply list_elem_of_In, filter_In in Hp as [Hp _]. by apply list_elem_of_In.
Qed.

(** ** The category page *)

Lemma categoryPage_matching all subs selTags :
  CategoryPage.matching all subs selTags = CaspianData.filterProducts all selTags subs.
Proof.
  rewrite filterProducts_filter. unfold CategoryPage.matching. cbv zeta.
  assert (Hid : forall l : list Product, List.filter (fun _ => true) l = l).
  { induction l as [|x l IH]; simpl; [done|]. by rewrite IH. }
  destruct subs as [|s0 subs], selTags as [|t0 selTags].
  - simpl. symmetry. apply Hid.
  - change (0 <? length (@nil string))%nat with false.
    change (0 <? length (t0 :: selTags))%nat with true. cbv iota.
    apply filter_ext. intros p. unfold CaspianData.matchesFilters. cbv zeta.
    simpl (negb _). cbv iota. by rewrite andb_true_r.
  - change (0 <? length (@nil string))%nat with false.
    change (0 <? length (s0 :: subs))%nat with true. cbv iota.
    apply filter_ext. intros p. unfold CaspianData.matchesFilters. cbv zeta.
    simpl (negb _). cbv iota. done.
  - change (0 <? length (s0 :: subs))%nat with true.
    change (0 <? length (t0 :: selTags))%nat with true. cbv iota.
    rewrite filter_filter. apply filter_ext. intros p.
    unfold CaspianData.matchesFilters. cbv zeta. simpl (negb _). cbv iota.
    apply andb_comm.
Qed.

(** X24. The filter that the category page applies by itself keeps the
    products that [filterProducts] of the data layer returns for the same
    selections: the page shows them in the order of the chosen sort, and in
    their own order when the sort value is none of the four known ones. *)
Theorem categoryPage_applyFilters
    (h : Host) (price : Product -> string) (rating : Product -> QArith_base.Q)
    (sortValue : string) (allCategoryProducts : list Product)
    (selectedSubCategories selectedTags : list string) :
  let shown := CategoryPage.applyFilters h price rating sortValue allCategoryProducts
                 selectedSubCategories selectedTags in
  let kept := CaspianData.filterProducts allCategoryProducts selectedTags
                selectedSubCategories in
  shown ≡ₚ kept
  /\ (sortValue ∉ ["newest"; "price-low"; "price-high"; "rating"]%string ->
      shown = kept)
  /\ (length shown <= length allCategoryProducts)%nat.
Proof.
  cbv zeta. unfold CategoryPage.applyFilters. rewrite categoryPage_matching.
  split; [apply sortBy_Permutation|]. split.
  - intros Hv. unfold DealsPage.sortBy.
    repeat case_bool_decide; subst; try done; exfalso; apply Hv;
      apply list_elem_of_In; vm_compute; tauto.
  - rewrite sortBy_Permutation, filterProducts_filter.
    apply sublist_length, filter_sublist.
Qed.
